(** * Phase-synchrony measures of [erp_phase_analysis.py]

    A shallow embedding of the numeric core of the ERP phase-analysis
    script: [calculate_cross_spectrum_hilbert], [calculate_plv],
    [calculate_iplv], [calculate_pli] and [calculate_wpli].

    Conventions of the embedding.
    - [float64] values that the pipeline keeps finite are real numbers
      ([R]); rounding and overflow are not modelled.  Division is the one
      operation of the pipeline that leaves the finite range, so every
      value produced by a division lives in [float64], which adds the
      IEEE-754 special values [NaN], [PInf] and [NInf].
    - A numpy array carries its shape next to its cells, so that an array
      with an empty axis still knows the length of the other axes.
    - Python exceptions are the [Raise] results of an error monad.
    - The handlers of [MyApp] are functions on the fields and widget values
      they read and write; the figure and the drawing calls are left out.
      Python's [int] and [Epochs.filter] are parameters of [apply_filter]. *)

From Stdlib Require Import String Ascii.
From Stdlib Require Import Reals Lra Lia ZArith List Bool.
From Stdlib Require Import Rgeom Permutation.
Import ListNotations.

Open Scope R_scope.

(** ** Exceptions *)

Inductive exn : Type :=
| IndexError
| ValueError.

Inductive result (A : Type) : Type :=
| Ok (a : A)
| Raise (e : exn).

Arguments Ok {A} a.
Arguments Raise {A} e.

Definition bind {A B : Type} (m : result A) (k : A -> result B) : result B :=
  match m with
  | Ok a => k a
  | Raise e => Raise e
  end.

Notation "x <- m ;; k" := (bind m (fun x => k))
  (at level 61, m at next level, right associativity).

(** ** Scalars *)

(** [complex128], idealised: real and imaginary part. *)
Definition C : Type := (R * R)%type.

Definition real (z : C) : R := fst z.
Definition imag (z : C) : R := snd z.

Definition C0 : C := (0, 0).
(** Python's [1j]. *)
Definition Ci : C := (0, 1).
Definition RtoC (x : R) : C := (x, 0).

Definition Cplus (z w : C) : C := (real z + real w, imag z + imag w).
Definition Cmult (z w : C) : C :=
  (real z * real w - imag z * imag w, real z * imag w + imag z * real w).
Definition Cscale (x : R) (z : C) : C := (x * real z, x * imag z).

(** [np.conj]. *)
Definition np_conj (z : C) : C := (real z, - imag z).

(** [np.abs] on a complex number. *)
Definition Cabs (z : C) : R := sqrt (Rsqr (real z) + Rsqr (imag z)).

(** [np.exp] on a complex number. *)
Definition Cexp (z : C) : C :=
  (exp (real z) * cos (imag z), exp (real z) * sin (imag z)).

(** [np.arctan2 y x]. *)
Definition arctan2 (y x : R) : R :=
  if Rlt_dec 0 x then atan (y / x)
  else if Rlt_dec x 0 then
         if Rlt_dec y 0 then atan (y / x) - PI else atan (y / x) + PI
  else if Rlt_dec 0 y then PI / 2
  else if Rlt_dec y 0 then - (PI / 2)
  else 0.

(** [np.angle z], which is [arctan2 z.imag z.real]. *)
Definition np_angle (z : C) : R := arctan2 (imag z) (real z).

(** [np.sign] on a real number. *)
Definition np_sign (x : R) : R :=
  if Rlt_dec x 0 then -1 else if Rlt_dec 0 x then 1 else 0.

(** A [float64] that may have left the finite range. *)
Inductive float64 : Type :=
| Finite (x : R)
| PInf
| NInf
| NaN.

(** [np.divide] ([/]) on [float64], with the IEEE-754 special cases:
    [0/0] and [inf/inf] are [NaN], a non-zero number over zero is an
    infinity.  No exception is raised. *)
Definition np_divide (a b : float64) : float64 :=
  match a, b with
  | NaN, _ | _, NaN => NaN
  | Finite x, Finite y =>
      if Req_dec_T y 0 then
        if Req_dec_T x 0 then NaN
        else if Rlt_dec 0 x then PInf else NInf
      else Finite (x / y)
  | Finite _, PInf | Finite _, NInf => Finite 0
  | PInf, Finite y => if Rlt_dec y 0 then NInf else PInf
  | NInf, Finite y => if Rlt_dec y 0 then PInf else NInf
  | PInf, PInf | PInf, NInf | NInf, PInf | NInf, NInf => NaN
  end.

(** [np.abs] on a [float64]. *)
Definition np_abs (a : float64) : float64 :=
  match a with
  | Finite x => Finite (Rabs x)
  | PInf | NInf => PInf
  | NaN => NaN
  end.

(** A [complex128] whose parts may have left the finite range. *)
Definition complex128 : Type := (float64 * float64)%type.

(** [np.abs] on a [complex128] ([hypot] of the two parts). *)
Definition np_abs_complex (z : complex128) : float64 :=
  match z with
  | (Finite x, Finite y) => Finite (Cabs (x, y))
  | (PInf, _) | (NInf, _) | (_, PInf) | (_, NInf) => PInf
  | _ => NaN
  end.

(** ** Arrays *)

(** A two-dimensional array: [shape = (nrows, ncols)]. *)
Record ndarray2 (A : Type) : Type := mkArray2 {
  nrows : nat;
  ncols : nat;
  rows : list (list A)
}.

Arguments mkArray2 {A} nrows ncols rows.
Arguments nrows {A} n.
Arguments ncols {A} n.
Arguments rows {A} n.

(** The signal tensor: [shape = (n_trials, n_channels, n_samples)],
    indexed [trial, channel, sample]. *)
Record tensor : Type := mkTensor {
  n_trials : nat;
  n_channels : nat;
  n_samples : nat;
  cells : list (list (list R))
}.

(** An elementwise unary operation. *)
Definition map_array {A B : Type} (f : A -> B) (a : ndarray2 A) : ndarray2 B :=
  mkArray2 (nrows a) (ncols a) (map (map f) (rows a)).

Fixpoint zip_with {A B D : Type} (f : A -> B -> D) (l : list A) (m : list B)
  : list D :=
  match l, m with
  | x :: l', y :: m' => f x y :: zip_with f l' m'
  | _, _ => []
  end.

(** An elementwise binary operation on two arrays of one shape. *)
Definition zip_array {A B D : Type} (f : A -> B -> D)
  (a : ndarray2 A) (b : ndarray2 B) : ndarray2 D :=
  mkArray2 (nrows a) (ncols a) (zip_with (zip_with f) (rows a) (rows b)).

(** Resolution of an integer index on an axis of length [n]: numpy counts
    a negative index from the end of the axis and raises [IndexError]
    outside [-n, n). *)
Definition normalize_index (i : Z) (n : nat) : result nat :=
  let j := if (i <? 0)%Z then (i + Z.of_nat n)%Z else i in
  if (0 <=? j)%Z && (j <? Z.of_nat n)%Z then Ok (Z.to_nat j)
  else Raise IndexError.

(** [data[:, ch, :]]. *)
Definition take_channel (data : tensor) (ch : Z) : result (ndarray2 R) :=
  k <- normalize_index ch (n_channels data) ;;
  Ok (mkArray2 (n_trials data) (n_samples data)
        (map (fun trial => nth k trial []) (cells data))).

(** ** The analytic signal ([scipy.signal.hilbert])

    The library routine is not part of the script; it is written out here
    from its algorithm: a forward transform of length [N] along the last
    axis, the one-sided weights [h], and the inverse transform.  [N] is the
    length of the last axis and a non-positive [N] raises [ValueError]. *)

Definition cis (theta : R) : C := (cos theta, sin theta).

Definition Csum (l : list C) : C := fold_right Cplus C0 l.

(** [fft(x, N)] of one real row. *)
Definition fft (x : list R) (N : nat) : list C :=
  map (fun k =>
         Csum (map (fun m =>
                      Cmult (RtoC (nth m x 0))
                        (cis (- (2 * PI * INR k * INR m / INR N))))
                 (seq 0 N)))
    (seq 0 N).

(** [ifft(X)] of one row. *)
Definition ifft (X : list C) : list C :=
  let N := length X in
  map (fun m =>
         Cscale (/ INR N)
           (Csum (map (fun k =>
                         Cmult (nth k X C0)
                           (cis (2 * PI * INR k * INR m / INR N)))
                    (seq 0 N))))
    (seq 0 N).

(** The weights [h]: [h[0] = 1], [h[N/2] = 1] for an even [N], [2] on the
    positive frequencies in between and [0] elsewhere. *)
Definition hilbert_h (N : nat) : list R :=
  map (fun k =>
         if Nat.even N then
           if (k =? 0)%nat || (k =? N / 2)%nat then 1
           else if (k <? N / 2)%nat then 2 else 0
         else
           if (k =? 0)%nat then 1
           else if (k <? (N + 1) / 2)%nat then 2 else 0)
    (seq 0 N).

Definition hilbert_row (N : nat) (x : list R) : list C :=
  ifft (zip_with Cmult (fft x N) (map RtoC (hilbert_h N))).

(** [hilbert(x)] on a two-dimensional array, along [axis=-1]. *)
Definition hilbert (x : ndarray2 R) : result (ndarray2 C) :=
  let N := ncols x in
  if (N <=? 0)%nat then Raise ValueError
  else Ok (mkArray2 (nrows x) N (map (hilbert_row N) (rows x))).

(** ** Reductions along the trial axis *)

(** [np.add.reduce(a, axis=0)]. *)
Definition add_reduce0 {A : Type} (zero : A) (plus : A -> A -> A)
  (a : ndarray2 A) : list A :=
  fold_left (zip_with plus) (rows a) (repeat zero (ncols a)).

(** [np.mean(a, axis=0)] of a real array: the sums along axis 0 divided by
    the length of that axis. *)
Definition np_mean0 (a : ndarray2 R) : list float64 :=
  map (fun s => np_divide (Finite s) (Finite (INR (nrows a))))
    (add_reduce0 0 Rplus a).

(** [np.mean(a, axis=0)] of a complex array. *)
Definition np_mean0_complex (a : ndarray2 C) : list complex128 :=
  map (fun s =>
         (np_divide (Finite (real s)) (Finite (INR (nrows a))),
          np_divide (Finite (imag s)) (Finite (INR (nrows a)))))
    (add_reduce0 C0 Cplus a).

(** ** The methods of the script *)

Definition calculate_cross_spectrum_hilbert (data : tensor) (chs1 chs2 : Z)
  : result (ndarray2 C) :=
  data_chs1 <- take_channel data chs1 ;;
  data_chs2 <- take_channel data chs2 ;;
  analytic_signal_ch1 <- hilbert data_chs1 ;;
  analytic_signal_ch2 <- hilbert data_chs2 ;;
  let cross_spectrum :=
    zip_array Cmult analytic_signal_ch1 (map_array np_conj analytic_signal_ch2) in
  Ok cross_spectrum.

Definition calculate_plv (data : tensor) (ch1 ch2 : Z) : result (list float64) :=
  data_ch1 <- take_channel data ch1 ;;
  data_ch2 <- take_channel data ch2 ;;
  analytic_signal_ch1 <- hilbert data_ch1 ;;
  analytic_signal_ch2 <- hilbert data_ch2 ;;
  let phase_difference :=
    zip_array Rminus (map_array np_angle analytic_signal_ch1)
      (map_array np_angle analytic_signal_ch2) in
  let complex_phase_difference :=
    map_array (fun x => Cexp (Cmult Ci (RtoC x))) phase_difference in
  let mean_vector := np_mean0_complex complex_phase_difference in
  let plv := map np_abs_complex mean_vector in
  Ok plv.

Definition calculate_iplv (data : tensor) (ch1 ch2 : Z) : result (list float64) :=
  data_ch1 <- take_channel data ch1 ;;
  data_ch2 <- take_channel data ch2 ;;
  analytic_signal_ch1 <- hilbert data_ch1 ;;
  analytic_signal_ch2 <- hilbert data_ch2 ;;
  let phase_difference :=
    zip_array Rminus (map_array np_angle analytic_signal_ch1)
      (map_array np_angle analytic_signal_ch2) in
  let complex_phase_difference :=
    map_array (fun x => Cexp (Cmult Ci (RtoC x))) phase_difference in
  let complex_phase_difference := map_array imag complex_phase_difference in
  let mean_vector := np_mean0 complex_phase_difference in
  let iplv := map np_abs mean_vector in
  Ok iplv.

Definition calculate_pli (data : tensor) (ch1 ch2 : Z) : result (list float64) :=
  data_ch1 <- take_channel data ch1 ;;
  data_ch2 <- take_channel data ch2 ;;
  analytic_signal_ch1 <- hilbert data_ch1 ;;
  analytic_signal_ch2 <- hilbert data_ch2 ;;
  let phase_difference :=
    zip_array Rminus (map_array np_angle analytic_signal_ch1)
      (map_array np_angle analytic_signal_ch2) in
  let complex_phase_difference := map_array np_sign phase_difference in
  let mean_vector := np_mean0 complex_phase_difference in
  let pli := map np_abs mean_vector in
  Ok pli.

(** The local variables [num] and [denom] of [calculate_wpli]. *)
Definition wpli_num (s : ndarray2 C) : list float64 :=
  let s_imag := map_array imag s in
  map np_abs
    (np_mean0 (zip_array Rmult (map_array Rabs s_imag) (map_array np_sign s_imag))).

Definition wpli_denom (s : ndarray2 C) : list float64 :=
  let s_imag := map_array imag s in
  np_mean0 (map_array Rabs s_imag).

Definition calculate_wpli (data : tensor) (ch1 ch2 : Z) : result (list float64) :=
  s <- calculate_cross_spectrum_hilbert data ch1 ch2 ;;
  let num := wpli_num s in
  let denom := wpli_denom s in
  let wpli := zip_with np_divide num denom in
  Ok wpli.

(** ** Inputs *)

(** Every trial has [n_channels] channels of [n_samples] samples, and
    there are [n_trials] trials. *)
Definition rectangular (data : tensor) : Prop :=
  length (cells data) = n_trials data /\
  Forall (fun trial =>
            length trial = n_channels data /\
            Forall (fun row => length row = n_samples data) trial)
    (cells data).

(** A well-formed tensor is rectangular and its sample axis is not empty
    (the input constraint of the analytic-signal helper). *)
Definition well_formed (data : tensor) : Prop :=
  rectangular data /\ (1 <= n_samples data)%nat.

(** A channel index within [0, n_channels). *)
Definition valid_channel (data : tensor) (ch : Z) : Prop :=
  (0 <= ch < Z.of_nat (n_channels data))%Z.

(** A channel index that numpy rejects: outside [-n_channels, n_channels). *)
Definition out_of_range (data : tensor) (ch : Z) : Prop :=
  (ch < - Z.of_nat (n_channels data) \/ Z.of_nat (n_channels data) <= ch)%Z.

(** A two-dimensional array whose cells agree with its shape. *)
Definition shaped {A : Type} (a : ndarray2 A) : Prop :=
  length (rows a) = nrows a /\ Forall (fun r => length r = ncols a) (rows a).

(** ** The measures, sample by sample

    The definitions of this section follow the prose description of the
    measures: one value per sample, obtained from the trials one by one. *)

Definition Rsum (l : list R) : R := fold_right Rplus 0 l.

(** The arithmetic mean: the sum over the count. *)
Definition arithmetic_mean (l : list R) : float64 :=
  np_divide (Finite (Rsum l)) (Finite (INR (length l))).

Definition arithmetic_mean_complex (l : list C) : complex128 :=
  (np_divide (Finite (real (Csum l))) (Finite (INR (length l))),
   np_divide (Finite (imag (Csum l))) (Finite (INR (length l)))).

(** The analytic signal of channel [ch] in one trial. *)
Definition analytic_signal (data : tensor) (trial : list (list R)) (ch : Z)
  : list C :=
  hilbert_row (n_samples data) (nth (Z.to_nat ch) trial []).

(** The instantaneous phase of channel [ch] at sample [j] of one trial. *)
Definition phase (data : tensor) (trial : list (list R)) (ch : Z) (j : nat) : R :=
  np_angle (nth j (analytic_signal data trial ch) C0).

(** The raw phase difference: no wrapping is applied. *)
Definition phase_difference (data : tensor) (ch1 ch2 : Z)
  (trial : list (list R)) (j : nat) : R :=
  phase data trial ch1 j - phase data trial ch2 j.

(** [exp(i * phase difference)]. *)
Definition complex_phase_difference (data : tensor) (ch1 ch2 : Z)
  (trial : list (list R)) (j : nat) : C :=
  Cexp (Cmult Ci (RtoC (phase_difference data ch1 ch2 trial j))).

Definition spec_plv (data : tensor) (ch1 ch2 : Z) (j : nat) : float64 :=
  np_abs_complex
    (arithmetic_mean_complex
       (map (fun trial => complex_phase_difference data ch1 ch2 trial j)
          (cells data))).

Definition spec_iplv (data : tensor) (ch1 ch2 : Z) (j : nat) : float64 :=
  np_abs
    (arithmetic_mean
       (map (fun trial => imag (complex_phase_difference data ch1 ch2 trial j))
          (cells data))).

Definition spec_pli (data : tensor) (ch1 ch2 : Z) (j : nat) : float64 :=
  np_abs
    (arithmetic_mean
       (map (fun trial => np_sign (phase_difference data ch1 ch2 trial j))
          (cells data))).

(** Row [trial] of the array [phase_difference] of the methods. *)
Definition phase_difference_row (data : tensor) (ch1 ch2 : Z)
  (trial : list (list R)) : list R :=
  zip_with Rminus (map np_angle (analytic_signal data trial ch1))
    (map np_angle (analytic_signal data trial ch2)).

(** The array [phase_difference] of the methods. *)
Definition phase_difference_array (data : tensor) (ch1 ch2 : Z) : ndarray2 R :=
  mkArray2 (n_trials data) (n_samples data)
    (map (phase_difference_row data ch1 ch2) (cells data)).

(** Row [trial] of the cross-spectrum. *)
Definition cross_spectrum_row (data : tensor) (ch1 ch2 : Z)
  (trial : list (list R)) : list C :=
  zip_with Cmult (analytic_signal data trial ch1)
    (map np_conj (analytic_signal data trial ch2)).

(** The cross-spectrum of two channels. *)
Definition cross_spectrum_array (data : tensor) (ch1 ch2 : Z) : ndarray2 C :=
  mkArray2 (n_trials data) (n_samples data)
    (map (cross_spectrum_row data ch1 ch2) (cells data)).

(** [data[t, ch, :]]: row [t] of the channel slice [data[:, ch, :]]. *)
Definition trial_row (data : tensor) (t : nat) (ch : Z) : list R :=
  nth (Z.to_nat ch) (nth t (cells data) []) [].

(** [hilbert(data[:, ch, :])]. *)
Definition analytic_of_channel (data : tensor) (ch : Z) : result (ndarray2 C) :=
  data_ch <- take_channel data ch ;;
  hilbert data_ch.



(** The imaginary part of the cross-spectrum [s] vanishes at sample [j] in
    every trial. *)
Definition zero_imag_at (s : ndarray2 C) (j : nat) : Prop :=
  Forall (fun row => imag (nth j row C0) = 0) (rows s).

(** ** Sample tensors *)


(** One trial, one channel, one sample. *)
Definition one_cell : tensor := mkTensor 1 1 1 [[[1]]].

(** Two trials, two channels, two samples. *)
Definition two_by_two : tensor :=
  mkTensor 2 2 2 [[[1; 0]; [0; 1]]; [[0; 2]; [3; 0]]].

(** Three trials; trial 0 is trial 0 of [two_by_two]. *)
Definition three_trials : tensor :=
  mkTensor 3 2 2 [[[1; 0]; [0; 1]]; [[5; 5]; [5; 5]]; [[7; 8]; [9; 7]]].

(** [two_by_two] with its trials exchanged. *)
Definition two_by_two_swapped : tensor :=
  mkTensor 2 2 2 [[[0; 2]; [3; 0]]; [[1; 0]; [0; 1]]].

(** Two tensors of three channels that differ in channel 2 only. *)
Definition three_channels : tensor :=
  mkTensor 2 3 2 [[[1; 2]; [3; 4]; [5; 6]]; [[0; 1]; [1; 0]; [7; 8]]].

Definition three_channels' : tensor :=
  mkTensor 2 3 2 [[[1; 2]; [3; 4]; [9; 9]]; [[0; 1]; [1; 0]; [0; 0]]].

(** ** The application

    The state of [MyApp] as far as its handlers read and write it.  The
    figure, the canvas and the drawing calls are left out: the handlers
    write to them and never read them back. *)

(** [mne.Epochs], as far as the application reads it. *)
Record Epochs : Type := mkEpochs {
  ch_names : list string;
  get_data : tensor
}.

(** The exceptions of the application: those of the numeric methods and
    of the list and string operations, and two more. *)
Inductive app_exn : Type :=
| EngineError (e : exn)
| KeyError
| AttributeError.

(** A [dict] with string keys, in insertion order. *)
Definition dict (V : Type) : Type := list (string * V).

(** [d[k] = v]: an existing key keeps its place and gets the new value, a
    new key goes to the end. *)
Fixpoint dict_set {V : Type} (k : string) (v : V) (d : dict V) : dict V :=
  match d with
  | [] => [(k, v)]
  | (k', v') :: d' =>
      if String.eqb k' k then (k', v) :: d' else (k', v') :: dict_set k v d'
  end.

Fixpoint dict_get {V : Type} (k : string) (d : dict V) : option V :=
  match d with
  | [] => None
  | (k', v') :: d' => if String.eqb k' k then Some v' else dict_get k d'
  end.

(** [l.index(x)]: the position of the first element equal to [x], or
    [ValueError]. *)
Fixpoint list_index (x : string) (l : list string) : result nat :=
  match l with
  | [] => Raise ValueError
  | y :: l' => if String.eqb y x then Ok 0%nat
               else i <- list_index x l' ;; Ok (S i)
  end.

(** What a handler leaves behind: the state after the call and the
    exception it raised, if any. *)
Definition outcome (S : Type) : Type := (S * option app_exn)%type.

Record MyApp : Type := mkApp {
  epochs : Epochs;
  filtered_epochs : Epochs;
  channels : list string;
  data : dict (option (list float64));
  returnValue : option (dict (option (list float64)));
  (* the widgets the handlers read *)
  filterLineEdit_text : string;
  methodComboBox_currentIndex : Z;
  list1_currentItem : option string;
  list2_currentItem : option string
}.

Definition with_data (self : MyApp) (d : dict (option (list float64))) : MyApp :=
  mkApp (epochs self) (filtered_epochs self) (channels self) d
    (returnValue self) (filterLineEdit_text self)
    (methodComboBox_currentIndex self) (list1_currentItem self)
    (list2_currentItem self).

Definition with_filtered_epochs (self : MyApp) (e : Epochs) : MyApp :=
  mkApp (epochs self) e (channels self) (data self)
    (returnValue self) (filterLineEdit_text self)
    (methodComboBox_currentIndex self) (list1_currentItem self)
    (list2_currentItem self).

Definition with_returnValue (self : MyApp)
  (r : option (dict (option (list float64)))) : MyApp :=
  mkApp (epochs self) (filtered_epochs self) (channels self) (data self)
    r (filterLineEdit_text self)
    (methodComboBox_currentIndex self) (list1_currentItem self)
    (list2_currentItem self).

Definition with_method (self : MyApp) (m : Z) : MyApp :=
  mkApp (epochs self) (filtered_epochs self) (channels self) (data self)
    (returnValue self) (filterLineEdit_text self)
    m (list1_currentItem self) (list2_currentItem self).

Definition with_filter_text (self : MyApp) (text : string) : MyApp :=
  mkApp (epochs self) (filtered_epochs self) (channels self) (data self)
    (returnValue self) text
    (methodComboBox_currentIndex self) (list1_currentItem self)
    (list2_currentItem self).

(** [self.methods]. *)
Definition methods : list (Z * string) :=
  [(0%Z, "Phase Locking Value (PLV)"%string);
   (1%Z, "Imaginary Phase Locking Value (iPLV)"%string);
   (2%Z, "Phase Lag Index (PLI)"%string);
   (3%Z, "Weighted Phase-Lag Index (wPLI)"%string)].

Fixpoint methods_get (m : Z) (d : list (Z * string)) : option string :=
  match d with
  | [] => None
  | (k, v) :: d' => if (k =? m)%Z then Some v else methods_get m d'
  end.

(** [run_phase_analysis]; the [option] is Python's [None]. *)
Definition run_phase_analysis (method : Z) (epochs : tensor)
  (channel1 channel2 : Z) : result (option (list float64)) :=
  if (method =? 0)%Z then
    r <- calculate_plv epochs channel1 channel2 ;; Ok (Some r)
  else if (method =? 1)%Z then
    r <- calculate_iplv epochs channel1 channel2 ;; Ok (Some r)
  else if (method =? 2)%Z then
    r <- calculate_pli epochs channel1 channel2 ;; Ok (Some r)
  else if (method =? 3)%Z then
    r <- calculate_wpli epochs channel1 channel2 ;; Ok (Some r)
  else Ok None.

(** The key of a channel pair in [self.data]: [f"{channel1} - {channel2}"]. *)
Definition pair_key (channel1 channel2 : string) : string :=
  (channel1 ++ " - " ++ channel2)%string.

(** [update_plot]: the stored results are dropped, then the title of the
    selected method is looked up. *)
Definition update_plot (self : MyApp) : outcome MyApp :=
  let method := methodComboBox_currentIndex self in
  let self := with_data self [] in
  match methods_get method methods with
  | Some _ => (self, None)
  | None => (self, Some KeyError)
  end.

(** [add_channels].  The drawing calls that follow the assignment to
    [self.data] are not part of the state; [self.ax.plot] raises
    [ValueError] when the result to draw is [None]. *)
Definition add_channels (self : MyApp) : outcome MyApp :=
  let method := methodComboBox_currentIndex self in
  match list1_currentItem self with
  | None => (self, Some AttributeError)
  | Some channel1 =>
      match list_index channel1 (ch_names (filtered_epochs self)) with
      | Raise e => (self, Some (EngineError e))
      | Ok channel1_idx =>
          match list2_currentItem self with
          | None => (self, Some AttributeError)
          | Some channel2 =>
              match list_index channel2 (ch_names (filtered_epochs self)) with
              | Raise e => (self, Some (EngineError e))
              | Ok channel2_idx =>
                  match run_phase_analysis method
                          (get_data (filtered_epochs self))
                          (Z.of_nat channel1_idx) (Z.of_nat channel2_idx) with
                  | Raise e => (self, Some (EngineError e))
                  | Ok d =>
                      let self :=
                        with_data self
                          (dict_set (pair_key channel1 channel2) d (data self)) in
                      match d with
                      | Some _ => (self, None)
                      | None => (self, Some (EngineError ValueError))
                      end
                  end
              end
          end
      end
  end.

(** The method box: [currentIndexChanged] is connected to [update_plot] and
    is emitted when the index changes. *)
Definition select_method (m : Z) (self : MyApp) : outcome MyApp :=
  if (m =? methodComboBox_currentIndex self)%Z then (self, None)
  else update_plot (with_method self m).

(** [closeEvent]. *)
Definition closeEvent (self : MyApp) : MyApp :=
  with_returnValue self (Some (data self)).

(** [s.replace(old, "")] for a one-character [old]. *)
Fixpoint str_remove (old : ascii) (s : string) : string :=
  match s with
  | EmptyString => EmptyString
  | String c rest =>
      if Ascii.eqb c old then str_remove old rest
      else String c (str_remove old rest)
  end.

(** [s.split(sep)] for a one-character [sep]. *)
Fixpoint str_split (sep : ascii) (s : string) : list string :=
  match s with
  | EmptyString => [EmptyString]
  | String c rest =>
      if Ascii.eqb c sep then EmptyString :: str_split sep rest
      else match str_split sep rest with
           | [] => [String c EmptyString]
           | field :: fields => String c field :: fields
           end
  end.

(** [[f(x) for x in l]]: the first exception stops the loop. *)
Fixpoint map_result {A B : Type} (f : A -> result B) (l : list A)
  : result (list B) :=
  match l with
  | [] => Ok []
  | x :: l' => y <- f x ;; ys <- map_result f l' ;; Ok (y :: ys)
  end.

Section Filter.

(** Python's [int] on a string and [Epochs.filter(l, h, method='iir')] are
    library code: they are parameters here.  The filter works in place: it
    gives the state of the object after the call and the exception it
    raised, if any. *)
Variable py_int : string -> result Z.
Variable mne_filter : Epochs -> Z -> Z -> outcome Epochs.

Definition apply_filter (self : MyApp) : outcome MyApp :=
  let filter := filterLineEdit_text self in
  if String.eqb filter ""%string then
    update_plot (with_filtered_epochs self (epochs self))
  else
    let filter := str_remove "["%char filter in
    let filter := str_remove "]"%char filter in
    let filter := str_split ","%char filter in
    match map_result py_int filter with
    | Raise e => (self, Some (EngineError e))
    | Ok filter =>
        let self := with_filtered_epochs self (epochs self) in
        match nth_error filter 0, nth_error filter 1 with
        | Some l, Some h =>
            let (filtered, err) := mne_filter (filtered_epochs self) l h in
            let self := with_filtered_epochs self filtered in
            match err with
            | Some e => (self, Some e)
            | None => update_plot self
            end
        | _, _ => (self, Some (EngineError IndexError))
        end
    end.

End Filter.

(** Every stored result is the selected method applied to the filtered
    data, for the channel pair named by its key. *)
Definition consistent (self : MyApp) : Prop :=
  forall key v, In (key, v) (data self) ->
    exists channel1 channel2 i1 i2,
      key = pair_key channel1 channel2 /\
      list_index channel1 (ch_names (filtered_epochs self)) = Ok i1 /\
      list_index channel2 (ch_names (filtered_epochs self)) = Ok i2 /\
      run_phase_analysis (methodComboBox_currentIndex self)
        (get_data (filtered_epochs self)) (Z.of_nat i1) (Z.of_nat i2) = Ok v.

(** The character [c] does not occur in the string. *)
Fixpoint lacks (c : ascii) (s : string) : Prop :=
  match s with
  | EmptyString => True
  | String c' rest => c' <> c /\ lacks c rest
  end.

(** The filter text without its brackets. *)
Definition strip_brackets (text : string) : string :=
  str_remove "]"%char (str_remove "["%char text).

(** A session on [two_by_two] with the channels [Fz] and [Cz] selected. *)
Definition sample_epochs : Epochs :=
  mkEpochs ["Fz"%string; "Cz"%string] two_by_two.

Definition sample_app : MyApp :=
  mkApp sample_epochs sample_epochs ["Fz"%string; "Cz"%string] [] None
    ""%string 0%Z (Some "Fz"%string) (Some "Cz"%string).

(** An [int] that reads two numerals, and a filter that changes nothing. *)
Definition sample_int (s : string) : result Z :=
  if String.eqb s "8"%string then Ok 8%Z
  else if String.eqb s "12"%string then Ok 12%Z
  else Raise ValueError.

Definition sample_filter (e : Epochs) (l h : Z) : outcome Epochs := (e, None).

(** ** Lists *)

Section Lists.
Context {A B D : Type}.

Lemma zip_with_length (f : A -> B -> D) (l : list A) :
  forall m, length (zip_with f l m) = Nat.min (length l) (length m).
Proof.
  induction l as [|x l IH]; intros [|y m]; simpl; auto.
Qed.

Lemma zip_with_nth (f : A -> B -> D) (da : A) (db : B) (dd : D) (l : list A) :
  forall m j, (j < length l)%nat -> (j < length m)%nat ->
    nth j (zip_with f l m) dd = f (nth j l da) (nth j m db).
Proof.
  induction l as [|x l IH]; intros [|y m] [|j] Hl Hm; simpl in *; try lia; auto.
  apply IH; lia.
Qed.

Lemma zip_with_repeat (f : A -> B -> D) (a : A) (b : B) (n : nat) :
  zip_with f (repeat a n) (repeat b n) = repeat (f a b) n.
Proof.
  induction n as [|n IH]; simpl; [reflexivity | now rewrite IH].
Qed.
End Lists.

Lemma zip_with_map_same {X A B D : Type} (f : A -> B -> D) (g : X -> A)
  (h : X -> B) (l : list X) :
  zip_with f (map g l) (map h l) = map (fun x => f (g x) (h x)) l.
Proof.
  induction l as [|x l IH]; simpl; [reflexivity | now rewrite IH].
Qed.

Lemma map_const_repeat {A B : Type} (f : A -> B) (b : B) (l : list A) :
  (forall x, In x l -> f x = b) -> map f l = repeat b (length l).
Proof.
  induction l as [|x l IH]; intros H; simpl; [reflexivity|].
  rewrite (H x) by now left.
  rewrite IH; [reflexivity | intros y Hy; apply H; now right].
Qed.

Lemma nth_error_repeat_lt {A : Type} (a : A) (n j : nat) :
  (j < n)%nat -> nth_error (repeat a n) j = Some a.
Proof.
  revert j; induction n as [|n IH]; intros [|j] H; simpl; try lia; auto.
  apply IH; lia.
Qed.

(** The sums along axis 0, cell by cell. *)
Lemma fold_zip_length {A : Type} (plus : A -> A -> A) (rs : list (list A)) :
  forall acc, Forall (fun r => length r = length acc) rs ->
    length (fold_left (zip_with plus) rs acc) = length acc.
Proof.
  induction rs as [|r rs IH]; intros acc H; simpl; [reflexivity|].
  inversion H as [|? ? Hr Hrs]; subst.
  assert (Hl : length (zip_with plus acc r) = length acc)
    by (rewrite zip_with_length, Hr; apply Nat.min_id).
  rewrite IH; [exact Hl | now rewrite Hl].
Qed.

Lemma fold_zip_nth {A : Type} (plus : A -> A -> A) (d : A) (rs : list (list A)) :
  forall acc j, (j < length acc)%nat ->
    Forall (fun r => length r = length acc) rs ->
    nth j (fold_left (zip_with plus) rs acc) d
    = fold_left plus (map (fun r => nth j r d) rs) (nth j acc d).
Proof.
  induction rs as [|r rs IH]; intros acc j Hj H; simpl; [reflexivity|].
  inversion H as [|? ? Hr Hrs]; subst.
  assert (Hl : length (zip_with plus acc r) = length acc)
    by (rewrite zip_with_length, Hr; apply Nat.min_id).
  rewrite IH; [| lia | now rewrite Hl].
  now rewrite (zip_with_nth plus d d d) by lia.
Qed.

Lemma fold_left_Rplus (l : list R) :
  forall a, fold_left Rplus l a = a + Rsum l.
Proof.
  induction l as [|x l IH]; intros a; simpl; [lra|].
  rewrite IH. lra.
Qed.

Lemma fold_left_Cplus (l : list C) :
  forall a, fold_left Cplus l a = Cplus a (Csum l).
Proof.
  induction l as [|x l IH]; intros [ar ai]; simpl.
  - unfold Cplus, C0; simpl. f_equal; lra.
  - rewrite IH. unfold Cplus; simpl. f_equal; lra.
Qed.

(** ** Shapes *)

Lemma add_reduce0_length {A : Type} (zero : A) (plus : A -> A -> A)
  (a : ndarray2 A) :
  shaped a -> length (add_reduce0 zero plus a) = ncols a.
Proof.
  intros [_ Hr]. unfold add_reduce0.
  rewrite fold_zip_length; rewrite repeat_length; auto.
Qed.

Lemma add_reduce0_nth {A : Type} (zero : A) (plus : A -> A -> A)
  (a : ndarray2 A) (j : nat) :
  shaped a -> (j < ncols a)%nat ->
  nth j (add_reduce0 zero plus a) zero
  = fold_left plus (map (fun r => nth j r zero) (rows a)) zero.
Proof.
  intros [_ Hr] Hj. unfold add_reduce0.
  rewrite fold_zip_nth; try rewrite repeat_length; auto.
  now rewrite nth_repeat.
Qed.

Lemma np_mean0_length (a : ndarray2 R) :
  shaped a -> length (np_mean0 a) = ncols a.
Proof.
  intros H. unfold np_mean0. rewrite length_map. now apply add_reduce0_length.
Qed.

Lemma np_mean0_complex_length (a : ndarray2 C) :
  shaped a -> length (np_mean0_complex a) = ncols a.
Proof.
  intros H. unfold np_mean0_complex. rewrite length_map.
  now apply add_reduce0_length.
Qed.

(** [np.mean(a, axis=0)[j]] is the arithmetic mean of column [j]. *)
Lemma np_mean0_nth_error (a : ndarray2 R) (j : nat) :
  shaped a -> (j < ncols a)%nat ->
  nth_error (np_mean0 a) j
  = Some (arithmetic_mean (map (fun r => nth j r 0) (rows a))).
Proof.
  intros H Hj. unfold np_mean0.
  rewrite nth_error_map.
  rewrite (nth_error_nth' _ 0) by (rewrite add_reduce0_length; auto).
  rewrite add_reduce0_nth by auto.
  simpl. unfold arithmetic_mean.
  rewrite fold_left_Rplus, Rplus_0_l, length_map.
  now destruct H as [-> _].
Qed.

Lemma np_mean0_complex_nth_error (a : ndarray2 C) (j : nat) :
  shaped a -> (j < ncols a)%nat ->
  nth_error (np_mean0_complex a) j
  = Some (arithmetic_mean_complex (map (fun r => nth j r C0) (rows a))).
Proof.
  intros H Hj. unfold np_mean0_complex.
  rewrite nth_error_map.
  rewrite (nth_error_nth' _ C0) by (rewrite add_reduce0_length; auto).
  rewrite add_reduce0_nth by auto.
  simpl. unfold arithmetic_mean_complex.
  rewrite fold_left_Cplus, length_map.
  destruct H as [-> _].
  destruct (Csum _) as [sr si]. unfold Cplus, C0; simpl.
  now rewrite !Rplus_0_l.
Qed.

Lemma map_nth_lt {A B : Type} (f : A -> B) (l : list A) (d : A) (d' : B) (j : nat) :
  (j < length l)%nat -> nth j (map f l) d' = f (nth j l d).
Proof.
  intros H. rewrite (nth_indep _ d' (f d)) by now rewrite length_map.
  apply map_nth.
Qed.

Lemma shaped_map_rows {X A : Type} (F : X -> list A) (l : list X) (n N : nat) :
  length l = n -> (forall x, length (F x) = N) ->
  shaped (mkArray2 n N (map F l)).
Proof.
  intros Hl HF. split; simpl.
  - now rewrite length_map.
  - apply Forall_forall. intros r Hr.
    apply in_map_iff in Hr. destruct Hr as [x [<- _]]. apply HF.
Qed.

(** ** Indexing *)

Lemma normalize_index_valid (i : Z) (n : nat) :
  (0 <= i < Z.of_nat n)%Z -> normalize_index i n = Ok (Z.to_nat i).
Proof.
  intros H. unfold normalize_index.
  destruct (Z.ltb_spec i 0); [lia|].
  destruct (Z.leb_spec 0 i); [|lia].
  destruct (Z.ltb_spec i (Z.of_nat n)); [reflexivity | lia].
Qed.

(** A negative index counts from the end of the axis. *)
Lemma normalize_index_negative (i : Z) (n : nat) :
  (- Z.of_nat n <= i < 0)%Z ->
  normalize_index i n = normalize_index (i + Z.of_nat n) n.
Proof.
  intros H. rewrite (normalize_index_valid (i + Z.of_nat n)) by lia.
  unfold normalize_index.
  destruct (Z.ltb_spec i 0); [|lia].
  destruct (Z.leb_spec 0 (i + Z.of_nat n)); [|lia].
  destruct (Z.ltb_spec (i + Z.of_nat n) (Z.of_nat n)); [reflexivity | lia].
Qed.

Lemma normalize_index_outside (i : Z) (n : nat) :
  (i < - Z.of_nat n \/ Z.of_nat n <= i)%Z ->
  normalize_index i n = Raise IndexError.
Proof.
  intros H. unfold normalize_index.
  destruct (Z.ltb_spec i 0).
  - destruct (Z.leb_spec 0 (i + Z.of_nat n)); [lia | reflexivity].
  - destruct (Z.leb_spec 0 i); [|lia].
    destruct (Z.ltb_spec i (Z.of_nat n)); [lia | reflexivity].
Qed.

Lemma take_channel_valid (data : tensor) (ch : Z) :
  valid_channel data ch ->
  take_channel data ch
  = Ok (mkArray2 (n_trials data) (n_samples data)
          (map (fun trial => nth (Z.to_nat ch) trial []) (cells data))).
Proof.
  intros H. unfold take_channel.
  now rewrite normalize_index_valid.
Qed.

Lemma take_channel_outside (data : tensor) (ch : Z) :
  (ch < - Z.of_nat (n_channels data) \/ Z.of_nat (n_channels data) <= ch)%Z ->
  take_channel data ch = Raise IndexError.
Proof.
  intros H. unfold take_channel.
  now rewrite normalize_index_outside.
Qed.

Lemma take_channel_negative (data : tensor) (ch : Z) :
  (- Z.of_nat (n_channels data) <= ch < 0)%Z ->
  take_channel data ch = take_channel data (ch + Z.of_nat (n_channels data)).
Proof.
  intros H. unfold take_channel.
  now rewrite normalize_index_negative.
Qed.

(** ** The analytic signal keeps the shape *)

Lemma fft_length (x : list R) (N : nat) : length (fft x N) = N.
Proof. unfold fft. now rewrite length_map, length_seq. Qed.

Lemma hilbert_h_length (N : nat) : length (hilbert_h N) = N.
Proof. unfold hilbert_h. now rewrite length_map, length_seq. Qed.

Lemma ifft_length (X : list C) : length (ifft X) = length X.
Proof. unfold ifft. now rewrite length_map, length_seq. Qed.

Lemma hilbert_row_length (N : nat) (x : list R) : length (hilbert_row N x) = N.
Proof.
  unfold hilbert_row.
  rewrite ifft_length, zip_with_length, fft_length, length_map, hilbert_h_length.
  apply Nat.min_id.
Qed.

Lemma hilbert_channel (data : tensor) (ch : Z) :
  (1 <= n_samples data)%nat ->
  hilbert (mkArray2 (n_trials data) (n_samples data)
             (map (fun trial => nth (Z.to_nat ch) trial []) (cells data)))
  = Ok (mkArray2 (n_trials data) (n_samples data)
          (map (fun trial => analytic_signal data trial ch) (cells data))).
Proof.
  intros H. unfold hilbert; simpl.
  destruct (Nat.leb_spec (n_samples data) 0); [lia|].
  now rewrite map_map.
Qed.

Lemma hilbert_empty_axis (x : ndarray2 R) :
  ncols x = 0%nat -> hilbert x = Raise ValueError.
Proof. intros H. unfold hilbert. now rewrite H. Qed.

(** ** The methods in closed form *)

(** The rows of the intermediate arrays, one trial at a time. *)
Lemma phase_difference_row_length (data : tensor) (ch1 ch2 : Z)
  (trial : list (list R)) :
  length (phase_difference_row data ch1 ch2 trial) = n_samples data.
Proof.
  unfold phase_difference_row.
  rewrite zip_with_length, !length_map. unfold analytic_signal.
  rewrite !hilbert_row_length. apply Nat.min_id.
Qed.

Lemma phase_difference_row_nth (data : tensor) (ch1 ch2 : Z)
  (trial : list (list R)) (j : nat) :
  (j < n_samples data)%nat ->
  nth j (phase_difference_row data ch1 ch2 trial) 0
  = phase_difference data ch1 ch2 trial j.
Proof.
  intros Hj. unfold phase_difference_row.
  rewrite (zip_with_nth Rminus (np_angle C0) (np_angle C0))
    by (rewrite length_map; unfold analytic_signal;
        now rewrite hilbert_row_length).
  now rewrite !map_nth.
Qed.

Lemma phase_difference_array_shaped {B : Type} (f : R -> B) (data : tensor)
  (ch1 ch2 : Z) :
  rectangular data ->
  shaped (map_array f (phase_difference_array data ch1 ch2)).
Proof.
  intros [Hn _]. unfold map_array, phase_difference_array; simpl.
  rewrite map_map. apply shaped_map_rows; [exact Hn|].
  intros trial. rewrite length_map. apply phase_difference_row_length.
Qed.

(** Column [j] of an array computed elementwise from [phase_difference]. *)
Lemma phase_difference_array_column {B : Type} (f : R -> B) (d : B)
  (data : tensor) (ch1 ch2 : Z) (j : nat) :
  (j < n_samples data)%nat ->
  map (fun r => nth j r d)
    (rows (map_array f (phase_difference_array data ch1 ch2)))
  = map (fun trial => f (phase_difference data ch1 ch2 trial j)) (cells data).
Proof.
  intros Hj. unfold map_array, phase_difference_array; simpl.
  rewrite !map_map. apply map_ext. intros trial.
  rewrite (map_nth_lt f _ 0) by now rewrite phase_difference_row_length.
  now rewrite phase_difference_row_nth.
Qed.

(** Both channels are sliced and transformed before any arithmetic. *)
Lemma analytic_signals (data : tensor) (ch1 ch2 : Z) {B : Type}
  (k : ndarray2 C -> ndarray2 C -> result B) :
  well_formed data -> valid_channel data ch1 -> valid_channel data ch2 ->
  (data_ch1 <- take_channel data ch1 ;;
   data_ch2 <- take_channel data ch2 ;;
   analytic_signal_ch1 <- hilbert data_ch1 ;;
   analytic_signal_ch2 <- hilbert data_ch2 ;;
   k analytic_signal_ch1 analytic_signal_ch2)
  = k (mkArray2 (n_trials data) (n_samples data)
         (map (fun trial => analytic_signal data trial ch1) (cells data)))
      (mkArray2 (n_trials data) (n_samples data)
         (map (fun trial => analytic_signal data trial ch2) (cells data))).
Proof.
  intros [_ Hs] H1 H2.
  rewrite !take_channel_valid by assumption. simpl.
  rewrite !hilbert_channel by assumption. reflexivity.
Qed.

Lemma phase_difference_closed (data : tensor) (ch1 ch2 : Z) :
  zip_array Rminus
    (map_array np_angle
       (mkArray2 (n_trials data) (n_samples data)
          (map (fun trial => analytic_signal data trial ch1) (cells data))))
    (map_array np_angle
       (mkArray2 (n_trials data) (n_samples data)
          (map (fun trial => analytic_signal data trial ch2) (cells data))))
  = phase_difference_array data ch1 ch2.
Proof.
  unfold zip_array, map_array, phase_difference_array; simpl.
  now rewrite !map_map, zip_with_map_same.
Qed.

Lemma calculate_plv_closed (data : tensor) (ch1 ch2 : Z) :
  well_formed data -> valid_channel data ch1 -> valid_channel data ch2 ->
  calculate_plv data ch1 ch2
  = Ok (map np_abs_complex
          (np_mean0_complex
             (map_array (fun x => Cexp (Cmult Ci (RtoC x)))
                (phase_difference_array data ch1 ch2)))).
Proof.
  intros Hw H1 H2. unfold calculate_plv.
  rewrite analytic_signals by assumption.
  now rewrite phase_difference_closed.
Qed.

Lemma calculate_iplv_closed (data : tensor) (ch1 ch2 : Z) :
  well_formed data -> valid_channel data ch1 -> valid_channel data ch2 ->
  calculate_iplv data ch1 ch2
  = Ok (map np_abs
          (np_mean0
             (map_array (fun x => imag (Cexp (Cmult Ci (RtoC x))))
                (phase_difference_array data ch1 ch2)))).
Proof.
  intros Hw H1 H2. unfold calculate_iplv.
  rewrite analytic_signals by assumption.
  rewrite phase_difference_closed.
  unfold map_array; simpl. now rewrite map_map, (map_ext _ _ (fun r => map_map _ _ r)).
Qed.

Lemma calculate_pli_closed (data : tensor) (ch1 ch2 : Z) :
  well_formed data -> valid_channel data ch1 -> valid_channel data ch2 ->
  calculate_pli data ch1 ch2
  = Ok (map np_abs
          (np_mean0 (map_array np_sign (phase_difference_array data ch1 ch2)))).
Proof.
  intros Hw H1 H2. unfold calculate_pli.
  rewrite analytic_signals by assumption.
  now rewrite phase_difference_closed.
Qed.

(** ** The measures agree with their sample-by-sample description *)

Ltac shape_facts :=
  repeat match goal with
         | |- _ /\ _ => split
         | |- Forall _ _ => constructor
         | |- well_formed _ => unfold well_formed
         | |- rectangular _ => unfold rectangular
         | |- valid_channel _ _ => unfold valid_channel
         end; simpl; try reflexivity; try lia.

(** C4: on a well-formed tensor and a valid channel pair, [calculate_plv]
    returns one value per sample, and the value at a sample is the
    magnitude of the arithmetic mean over the trials of
    [exp(i * (angle(analytic ch1) - angle(analytic ch2)))], the phase
    difference being the raw difference of the two angles. *)
Theorem calculate_plv_per_sample (data : tensor) (ch1 ch2 : Z) :
  well_formed data -> valid_channel data ch1 -> valid_channel data ch2 ->
  exists plv,
    calculate_plv data ch1 ch2 = Ok plv /\
    length plv = n_samples data /\
    forall j, (j < n_samples data)%nat ->
      nth_error plv j = Some (spec_plv data ch1 ch2 j).
Proof.
  intros Hw H1 H2. rewrite calculate_plv_closed by assumption.
  eexists; split; [reflexivity|].
  pose proof (phase_difference_array_shaped
                (fun x => Cexp (Cmult Ci (RtoC x))) data ch1 ch2 (proj1 Hw)) as Hs.
  split.
  - rewrite length_map, np_mean0_complex_length by exact Hs. reflexivity.
  - intros j Hj.
    rewrite nth_error_map, np_mean0_complex_nth_error by (exact Hs || exact Hj).
    rewrite phase_difference_array_column by exact Hj. reflexivity.
Qed.

Lemma calculate_plv_per_sample_witness :
  well_formed two_by_two /\ valid_channel two_by_two 0 /\
  valid_channel two_by_two 1 /\
  exists plv,
    calculate_plv two_by_two 0 1 = Ok plv /\
    length plv = 2%nat /\
    forall j, (j < 2)%nat -> nth_error plv j = Some (spec_plv two_by_two 0 1 j).
Proof.
  repeat split; [shape_facts .. |].
  apply (calculate_plv_per_sample two_by_two 0 1); shape_facts.
Defined.

(** C5: [calculate_iplv] follows the pipeline of [calculate_plv] up to the
    complex exponential, keeps the imaginary part of every per-trial value,
    then averages over the trials and takes the absolute value. *)
Theorem calculate_iplv_per_sample (data : tensor) (ch1 ch2 : Z) :
  well_formed data -> valid_channel data ch1 -> valid_channel data ch2 ->
  exists iplv,
    calculate_iplv data ch1 ch2 = Ok iplv /\
    length iplv = n_samples data /\
    forall j, (j < n_samples data)%nat ->
      nth_error iplv j = Some (spec_iplv data ch1 ch2 j).
Proof.
  intros Hw H1 H2. rewrite calculate_iplv_closed by assumption.
  eexists; split; [reflexivity|].
  pose proof (phase_difference_array_shaped
                (fun x => imag (Cexp (Cmult Ci (RtoC x)))) data ch1 ch2
                (proj1 Hw)) as Hs.
  split.
  - rewrite length_map, np_mean0_length by exact Hs. reflexivity.
  - intros j Hj.
    rewrite nth_error_map, np_mean0_nth_error by (exact Hs || exact Hj).
    rewrite phase_difference_array_column by exact Hj. reflexivity.
Qed.

Lemma calculate_iplv_per_sample_witness :
  well_formed two_by_two /\ valid_channel two_by_two 0 /\
  valid_channel two_by_two 1 /\
  exists iplv,
    calculate_iplv two_by_two 0 1 = Ok iplv /\
    length iplv = 2%nat /\
    forall j, (j < 2)%nat -> nth_error iplv j = Some (spec_iplv two_by_two 0 1 j).
Proof.
  repeat split; [shape_facts .. |].
  apply (calculate_iplv_per_sample two_by_two 0 1); shape_facts.
Defined.

Lemma np_sign_values (x : R) : np_sign x = -1 \/ np_sign x = 0 \/ np_sign x = 1.
Proof.
  unfold np_sign. destruct (Rlt_dec x 0); [now left|].
  destruct (Rlt_dec 0 x); [now right; right | now right; left].
Qed.

(** C6: [calculate_pli] returns, at each sample, the absolute value of the
    mean over the trials of the sign (a value of {-1, 0, 1}) of the raw
    phase difference [angle(analytic ch1) - angle(analytic ch2)]; there is
    no complex exponential and no wrapping before the sign. *)
Theorem calculate_pli_per_sample (data : tensor) (ch1 ch2 : Z) :
  well_formed data -> valid_channel data ch1 -> valid_channel data ch2 ->
  (forall x, np_sign x = -1 \/ np_sign x = 0 \/ np_sign x = 1) /\
  exists pli,
    calculate_pli data ch1 ch2 = Ok pli /\
    length pli = n_samples data /\
    forall j, (j < n_samples data)%nat ->
      nth_error pli j = Some (spec_pli data ch1 ch2 j).
Proof.
  intros Hw H1 H2. split; [exact np_sign_values|].
  rewrite calculate_pli_closed by assumption.
  eexists; split; [reflexivity|].
  pose proof (phase_difference_array_shaped np_sign data ch1 ch2 (proj1 Hw)) as Hs.
  split.
  - rewrite length_map, np_mean0_length by exact Hs. reflexivity.
  - intros j Hj.
    rewrite nth_error_map, np_mean0_nth_error by (exact Hs || exact Hj).
    rewrite phase_difference_array_column by exact Hj. reflexivity.
Qed.

Lemma calculate_pli_per_sample_witness :
  well_formed two_by_two /\ valid_channel two_by_two 0 /\
  valid_channel two_by_two 1 /\
  exists pli,
    calculate_pli two_by_two 0 1 = Ok pli /\
    length pli = 2%nat /\
    forall j, (j < 2)%nat -> nth_error pli j = Some (spec_pli two_by_two 0 1 j).
Proof.
  repeat split; [shape_facts .. |].
  apply (calculate_pli_per_sample two_by_two 0 1); shape_facts.
Defined.

(** ** The cross-spectrum and the weighted phase-lag index *)

Lemma nth_error_zip_with {A B D : Type} (f : A -> B -> D) (l : list A) :
  forall (m : list B) (j : nat) (a : A) (b : B),
    nth_error l j = Some a -> nth_error m j = Some b ->
    nth_error (zip_with f l m) j = Some (f a b).
Proof.
  induction l as [|x l IH]; intros [|y m] [|j] a b Hl Hm; simpl in *;
    try discriminate.
  - now inversion Hl; inversion Hm.
  - now apply IH.
Qed.

Lemma Forall_zip_with {A B D : Type} (f : A -> B -> D) (P : A -> Prop)
  (Q : B -> Prop) (S : D -> Prop) :
  (forall x y, P x -> Q y -> S (f x y)) ->
  forall l m, Forall P l -> Forall Q m -> Forall S (zip_with f l m).
Proof.
  intros H l. induction l as [|x l IH]; intros [|y m] Hl Hm; simpl;
    try constructor.
  - inversion Hl; inversion Hm; subst; auto.
  - inversion Hl; inversion Hm; subst; auto.
Qed.

Lemma shaped_map_array {A B : Type} (f : A -> B) (a : ndarray2 A) :
  shaped a -> shaped (map_array f a).
Proof.
  intros [Hn Hr]. split; simpl.
  - now rewrite length_map.
  - apply Forall_map. eapply Forall_impl; [|exact Hr].
    intros r Hl; simpl. now rewrite length_map.
Qed.

Lemma shaped_zip_array {A B D : Type} (f : A -> B -> D)
  (a : ndarray2 A) (b : ndarray2 B) :
  shaped a -> shaped b -> nrows a = nrows b -> ncols a = ncols b ->
  shaped (zip_array f a b).
Proof.
  intros [Hna Hra] [Hnb Hrb] Hn Hc. split; simpl.
  - rewrite zip_with_length, Hna, Hnb, Hn. apply Nat.min_id.
  - eapply Forall_zip_with; [|exact Hra|exact Hrb].
    intros x y Hx Hy; simpl in *.
    rewrite zip_with_length, Hx, Hy, Hc. apply Nat.min_id.
Qed.

Lemma cross_spectrum_row_length (data : tensor) (ch1 ch2 : Z)
  (trial : list (list R)) :
  length (cross_spectrum_row data ch1 ch2 trial) = n_samples data.
Proof.
  unfold cross_spectrum_row.
  rewrite zip_with_length, length_map. unfold analytic_signal.
  rewrite !hilbert_row_length. apply Nat.min_id.
Qed.

Lemma cross_spectrum_array_shaped (data : tensor) (ch1 ch2 : Z) :
  rectangular data -> shaped (cross_spectrum_array data ch1 ch2).
Proof.
  intros [Hn _]. apply shaped_map_rows; [exact Hn|].
  apply cross_spectrum_row_length.
Qed.

Lemma calculate_cross_spectrum_hilbert_closed (data : tensor) (ch1 ch2 : Z) :
  well_formed data -> valid_channel data ch1 -> valid_channel data ch2 ->
  calculate_cross_spectrum_hilbert data ch1 ch2
  = Ok (cross_spectrum_array data ch1 ch2).
Proof.
  intros Hw H1 H2. unfold calculate_cross_spectrum_hilbert.
  rewrite analytic_signals by assumption.
  unfold zip_array, map_array, cross_spectrum_array; simpl.
  now rewrite !map_map, zip_with_map_same.
Qed.

Lemma calculate_wpli_closed (data : tensor) (ch1 ch2 : Z) :
  well_formed data -> valid_channel data ch1 -> valid_channel data ch2 ->
  calculate_wpli data ch1 ch2
  = Ok (zip_with np_divide (wpli_num (cross_spectrum_array data ch1 ch2))
          (wpli_denom (cross_spectrum_array data ch1 ch2))).
Proof.
  intros Hw H1 H2. unfold calculate_wpli.
  now rewrite calculate_cross_spectrum_hilbert_closed.
Qed.

Lemma wpli_num_length (s : ndarray2 C) :
  shaped s -> length (wpli_num s) = ncols s.
Proof.
  intros H. unfold wpli_num.
  rewrite length_map, np_mean0_length; [reflexivity|].
  apply shaped_zip_array; try reflexivity; now repeat apply shaped_map_array.
Qed.

Lemma wpli_denom_length (s : ndarray2 C) :
  shaped s -> length (wpli_denom s) = ncols s.
Proof.
  intros H. unfold wpli_denom.
  rewrite np_mean0_length; [reflexivity|].
  now repeat apply shaped_map_array.
Qed.

(** The value of [num] and [denom] at a sample. *)
Lemma wpli_denom_nth_error (s : ndarray2 C) (j : nat) :
  shaped s -> (j < ncols s)%nat ->
  nth_error (wpli_denom s) j
  = Some (arithmetic_mean (map (fun r => Rabs (imag (nth j r C0))) (rows s))).
Proof.
  intros H Hj. unfold wpli_denom.
  rewrite np_mean0_nth_error; [| now repeat apply shaped_map_array | exact Hj].
  unfold map_array; simpl. rewrite !map_map.
  do 2 f_equal. apply map_ext_in. intros r Hr.
  destruct H as [_ Hrows]. rewrite Forall_forall in Hrows.
  rewrite (map_nth_lt Rabs _ 0) by (rewrite length_map, Hrows; auto).
  now rewrite (map_nth_lt imag _ C0) by (rewrite Hrows; auto).
Qed.

Lemma wpli_num_nth_error (s : ndarray2 C) (j : nat) :
  shaped s -> (j < ncols s)%nat ->
  nth_error (wpli_num s) j
  = Some (np_abs
            (arithmetic_mean
               (map (fun r => Rabs (imag (nth j r C0)) * np_sign (imag (nth j r C0)))
                  (rows s)))).
Proof.
  intros H Hj. unfold wpli_num.
  rewrite nth_error_map.
  rewrite np_mean0_nth_error;
    [| apply shaped_zip_array; try reflexivity; now repeat apply shaped_map_array
     | exact Hj].
  unfold zip_array, map_array; simpl. rewrite !map_map, zip_with_map_same, map_map.
  do 3 f_equal. apply map_ext_in. intros r Hr.
  destruct H as [_ Hrows]. rewrite Forall_forall in Hrows.
  rewrite (zip_with_nth Rmult 0 0) by (rewrite !length_map, Hrows; auto).
  rewrite (map_nth_lt Rabs _ 0) by (rewrite length_map, Hrows; auto).
  rewrite (map_nth_lt np_sign _ 0) by (rewrite length_map, Hrows; auto).
  now rewrite (map_nth_lt imag _ C0) by (rewrite Hrows; auto).
Qed.

(** ** Division *)

Lemma np_divide_zero_zero : np_divide (Finite 0) (Finite 0) = NaN.
Proof.
  unfold np_divide. destruct (Req_dec_T 0 0) as [_|H]; [reflexivity|].
  now contradict H.
Qed.

Lemma np_divide_count (x : R) (n : nat) :
  (1 <= n)%nat -> np_divide (Finite x) (Finite (INR n)) = Finite (x / INR n).
Proof.
  intros H. unfold np_divide.
  destruct (Req_dec_T (INR n) 0) as [E|_]; [|reflexivity].
  exfalso. revert E. apply not_0_INR. lia.
Qed.

Lemma Rsum_zero (l : list R) : (forall x, In x l -> x = 0) -> Rsum l = 0.
Proof.
  induction l as [|x l IH]; intros H; simpl; [reflexivity|].
  rewrite (H x) by now left.
  rewrite IH; [lra | intros y Hy; apply H; now right].
Qed.

(** The mean of an empty axis is [0/0]. *)
Lemma arithmetic_mean_nil : arithmetic_mean [] = NaN.
Proof. unfold arithmetic_mean; simpl. apply np_divide_zero_zero. Qed.

Lemma arithmetic_mean_zero (l : list R) :
  (1 <= length l)%nat -> Rsum l = 0 -> arithmetic_mean l = Finite 0.
Proof.
  intros Hl Hs. unfold arithmetic_mean.
  rewrite Hs, np_divide_count by exact Hl.
  f_equal. unfold Rdiv. apply Rmult_0_l.
Qed.

Lemma arithmetic_mean_zero_cases (l : list R) :
  Rsum l = 0 ->
  (length l = 0%nat /\ arithmetic_mean l = NaN) \/
  ((1 <= length l)%nat /\ arithmetic_mean l = Finite 0).
Proof.
  intros Hs. destruct l as [|x l].
  - left. split; [reflexivity | apply arithmetic_mean_nil].
  - right. split; [simpl; lia|].
    apply arithmetic_mean_zero; [simpl; lia | exact Hs].
Qed.

(** Where the imaginary part of the cross-spectrum vanishes in every
    trial, [num] and [denom] are equal (both [0], or both [NaN] when there
    is no trial) and their quotient is [NaN]. *)
Lemma wpli_zero_imag (s : ndarray2 C) (j : nat) :
  shaped s -> (j < ncols s)%nat -> zero_imag_at s j ->
  exists n d,
    nth_error (wpli_num s) j = Some n /\
    nth_error (wpli_denom s) j = Some d /\
    nth_error (zip_with np_divide (wpli_num s) (wpli_denom s)) j
    = Some (np_divide n d) /\
    np_divide n d = NaN /\
    ((1 <= nrows s)%nat -> n = Finite 0 /\ d = Finite 0).
Proof.
  intros Hs Hj Hz.
  pose proof (wpli_num_nth_error s j Hs Hj) as Hn.
  pose proof (wpli_denom_nth_error s j Hs Hj) as Hd.
  unfold zero_imag_at in Hz. rewrite Forall_forall in Hz.
  set (ln := map _ (rows s)) in Hn. set (ld := map _ (rows s)) in Hd.
  assert (Sn : Rsum ln = 0).
  { apply Rsum_zero. intros x Hx. apply in_map_iff in Hx.
    destruct Hx as [r [<- Hr]]. rewrite (Hz r Hr), Rabs_R0. lra. }
  assert (Sd : Rsum ld = 0).
  { apply Rsum_zero. intros x Hx. apply in_map_iff in Hx.
    destruct Hx as [r [<- Hr]]. rewrite (Hz r Hr). apply Rabs_R0. }
  assert (Ln : length ln = nrows s)
    by (unfold ln; rewrite length_map; apply Hs).
  assert (Ld : length ld = nrows s)
    by (unfold ld; rewrite length_map; apply Hs).
  exists (np_abs (arithmetic_mean ln)), (arithmetic_mean ld).
  split; [exact Hn|]. split; [exact Hd|].
  split; [now apply nth_error_zip_with|].
  destruct (arithmetic_mean_zero_cases ln Sn) as [[Zn En]|[Pn En]];
    destruct (arithmetic_mean_zero_cases ld Sd) as [[Zd Ed]|[Pd Ed]];
    rewrite En, Ed; simpl; try lia.
  - split; [reflexivity | intros; lia].
  - rewrite Rabs_R0. split; [apply np_divide_zero_zero | auto].
Qed.

Lemma repeat_of_nth_error {A : Type} (a : A) (l : list A) (n : nat) :
  length l = n -> (forall j, (j < n)%nat -> nth_error l j = Some a) ->
  l = repeat a n.
Proof.
  revert n; induction l as [|x l IH]; intros n Hl H; simpl in Hl; subst n.
  - reflexivity.
  - simpl. f_equal.
    + specialize (H 0%nat ltac:(lia)). now inversion H.
    + apply IH; [reflexivity|]. intros j Hj. apply (H (S j)). lia.
Qed.

Lemma one_cell_well_formed : well_formed one_cell.
Proof. shape_facts. Qed.


(** ** Channel indices *)

Lemma take_channel_raise (data : tensor) (ch : Z) (e : exn) :
  take_channel data ch = Raise e -> e = IndexError.
Proof.
  unfold take_channel, normalize_index.
  destruct (_ && _); simpl; intros H; now inversion H.
Qed.

(** The two slices come first: an index that numpy rejects stops a method
    before any signal processing. *)
Lemma slices_raise {A : Type} (data : tensor) (ch1 ch2 : Z)
  (k : ndarray2 R -> ndarray2 R -> result A) :
  out_of_range data ch1 \/ out_of_range data ch2 ->
  (data_ch1 <- take_channel data ch1 ;;
   data_ch2 <- take_channel data ch2 ;;
   k data_ch1 data_ch2) = Raise IndexError.
Proof.
  intros H.
  destruct (take_channel data ch1) as [x1|e] eqn:E1; simpl.
  - destruct H as [H|H].
    + rewrite take_channel_outside in E1 by exact H. discriminate.
    + now rewrite take_channel_outside by exact H.
  - now rewrite (take_channel_raise data ch1 e E1).
Qed.

(** C3, as amended: an integer channel index outside
    [-channel_count, channel_count), in either position, makes each of the
    four measures raise [IndexError]; nothing is returned. *)
Theorem out_of_range_channel_raises (data : tensor) (ch1 ch2 : Z) :
  out_of_range data ch1 \/ out_of_range data ch2 ->
  calculate_plv data ch1 ch2 = Raise IndexError /\
  calculate_iplv data ch1 ch2 = Raise IndexError /\
  calculate_pli data ch1 ch2 = Raise IndexError /\
  calculate_wpli data ch1 ch2 = Raise IndexError.
Proof.
  intros H.
  unfold calculate_plv, calculate_iplv, calculate_pli, calculate_wpli,
    calculate_cross_spectrum_hilbert.
  repeat split; try (now apply slices_raise).
  now rewrite slices_raise.
Qed.

Lemma out_of_range_channel_raises_witness :
  (out_of_range two_by_two 0 \/ out_of_range two_by_two (-3)) /\
  calculate_plv two_by_two 0 (-3) = Raise IndexError /\
  calculate_iplv two_by_two 0 (-3) = Raise IndexError /\
  calculate_pli two_by_two 0 (-3) = Raise IndexError /\
  calculate_wpli two_by_two 0 (-3) = Raise IndexError.
Proof.
  split; [right; left; simpl; lia|].
  apply (out_of_range_channel_raises two_by_two 0 (-3)).
  right; left; simpl; lia.
Defined.

(** A negative index within [-channel_count, 0) selects a channel. *)
Lemma calculate_plv_negative_index (data : tensor) (ch1 ch2 : Z) :
  (- Z.of_nat (n_channels data) <= ch1 < 0)%Z ->
  calculate_plv data ch1 ch2
  = calculate_plv data (ch1 + Z.of_nat (n_channels data)) ch2.
Proof.
  intros H. unfold calculate_plv. now rewrite take_channel_negative.
Qed.

(** C3, as stated, fails: [-1] is outside [0, channel_count), and
    [calculate_plv] takes it for the last channel and returns a result. *)
Lemma negative_channel_accepted :
  ~ (forall (data : tensor) (ch1 ch2 : Z),
        ~ valid_channel data ch1 \/ ~ valid_channel data ch2 ->
        (exists e, calculate_plv data ch1 ch2 = Raise e) /\
        (exists e, calculate_iplv data ch1 ch2 = Raise e) /\
        (exists e, calculate_pli data ch1 ch2 = Raise e) /\
        (exists e, calculate_wpli data ch1 ch2 = Raise e)).
Proof.
  intros H.
  destruct (H one_cell (-1)%Z 0%Z) as [[e He] _].
  - left. unfold valid_channel. lia.
  - rewrite calculate_plv_negative_index in He by (simpl; lia).
    simpl in He.
    rewrite calculate_plv_closed in He
      by (apply one_cell_well_formed || (unfold valid_channel; simpl; lia)).
    discriminate.
Qed.

(** ** The length of the results *)

(** C10: on a well-formed tensor and a valid channel pair each of the four
    measures returns a one-dimensional array (a list) whose length is the
    length of the sample axis. *)
Theorem result_length (data : tensor) (ch1 ch2 : Z) :
  well_formed data -> valid_channel data ch1 -> valid_channel data ch2 ->
  (exists plv, calculate_plv data ch1 ch2 = Ok plv /\
               length plv = n_samples data) /\
  (exists iplv, calculate_iplv data ch1 ch2 = Ok iplv /\
                length iplv = n_samples data) /\
  (exists pli, calculate_pli data ch1 ch2 = Ok pli /\
               length pli = n_samples data) /\
  (exists wpli, calculate_wpli data ch1 ch2 = Ok wpli /\
                length wpli = n_samples data).
Proof.
  intros Hw H1 H2.
  rewrite calculate_plv_closed, calculate_iplv_closed, calculate_pli_closed,
    calculate_wpli_closed by assumption.
  pose proof (cross_spectrum_array_shaped data ch1 ch2 (proj1 Hw)) as Hs.
  repeat split; eexists; (split; [reflexivity|]).
  - rewrite length_map, np_mean0_complex_length; [reflexivity|].
    apply phase_difference_array_shaped, Hw.
  - rewrite length_map, np_mean0_length; [reflexivity|].
    apply phase_difference_array_shaped, Hw.
  - rewrite length_map, np_mean0_length; [reflexivity|].
    apply phase_difference_array_shaped, Hw.
  - rewrite zip_with_length, wpli_num_length, wpli_denom_length by exact Hs.
    apply Nat.min_id.
Qed.

Lemma result_length_witness :
  well_formed three_trials /\ valid_channel three_trials 1 /\
  valid_channel three_trials 0 /\
  (exists plv, calculate_plv three_trials 1 0 = Ok plv /\ length plv = 2%nat) /\
  (exists iplv, calculate_iplv three_trials 1 0 = Ok iplv /\
                length iplv = 2%nat) /\
  (exists pli, calculate_pli three_trials 1 0 = Ok pli /\ length pli = 2%nat) /\
  (exists wpli, calculate_wpli three_trials 1 0 = Ok wpli /\
                length wpli = 2%nat).
Proof.
  split; [shape_facts|]. split; [shape_facts|]. split; [shape_facts|].
  apply (result_length three_trials 1 0); shape_facts.
Defined.

(** ** Trials do not mix *)

Lemma analytic_of_channel_closed (data : tensor) (ch : Z) :
  well_formed data -> valid_channel data ch ->
  analytic_of_channel data ch
  = Ok (mkArray2 (n_trials data) (n_samples data)
          (map (fun trial => analytic_signal data trial ch) (cells data))).
Proof.
  intros [_ Hs] Hc. unfold analytic_of_channel.
  rewrite take_channel_valid by exact Hc. simpl.
  now apply hilbert_channel.
Qed.

Lemma trial_row_length (data : tensor) (t : nat) (ch : Z) :
  rectangular data -> valid_channel data ch -> (t < n_trials data)%nat ->
  length (trial_row data t ch) = n_samples data.
Proof.
  intros [Hn Hf] Hc Ht. unfold trial_row.
  rewrite Forall_forall in Hf.
  destruct (Hf (nth t (cells data) [])) as [Hl Hrow].
  - apply nth_In. lia.
  - rewrite Forall_forall in Hrow. apply Hrow, nth_In.
    unfold valid_channel in Hc. lia.
Qed.

Lemma nth_error_map_rows {X Y : Type} (F : X -> Y) (l : list X) (d : X) (t : nat) :
  (t < length l)%nat -> nth_error (map F l) t = Some (F (nth t l d)).
Proof.
  intros H. rewrite nth_error_map, (nth_error_nth' l d H). reflexivity.
Qed.

(** C9: the analytic signal of trial [t] of a channel, and the
    cross-spectrum of trial [t] of two channels, are functions of row [t]
    of the channel slices alone: two well-formed tensors that agree on that
    row get the same row [t], whatever their other trials hold. *)
Theorem trial_independence (d1 d2 : tensor) (t : nat) :
  well_formed d1 -> well_formed d2 ->
  (t < n_trials d1)%nat -> (t < n_trials d2)%nat ->
  (forall ch,
      valid_channel d1 ch -> valid_channel d2 ch ->
      trial_row d1 t ch = trial_row d2 t ch ->
      exists a1 a2 row,
        analytic_of_channel d1 ch = Ok a1 /\
        analytic_of_channel d2 ch = Ok a2 /\
        nth_error (rows a1) t = Some row /\
        nth_error (rows a2) t = Some row) /\
  (forall ch1 ch2,
      valid_channel d1 ch1 -> valid_channel d2 ch1 ->
      valid_channel d1 ch2 -> valid_channel d2 ch2 ->
      trial_row d1 t ch1 = trial_row d2 t ch1 ->
      trial_row d1 t ch2 = trial_row d2 t ch2 ->
      exists s1 s2 row,
        calculate_cross_spectrum_hilbert d1 ch1 ch2 = Ok s1 /\
        calculate_cross_spectrum_hilbert d2 ch1 ch2 = Ok s2 /\
        nth_error (rows s1) t = Some row /\
        nth_error (rows s2) t = Some row).
Proof.
  intros Hw1 Hw2 Ht1 Ht2.
  assert (Hl1 : (t < length (cells d1))%nat) by (destruct Hw1 as [[-> _] _]; exact Ht1).
  assert (Hl2 : (t < length (cells d2))%nat) by (destruct Hw2 as [[-> _] _]; exact Ht2).
  assert (Hsamples : forall ch, valid_channel d1 ch -> valid_channel d2 ch ->
             trial_row d1 t ch = trial_row d2 t ch -> n_samples d1 = n_samples d2).
  { intros ch Hc1 Hc2 E.
    rewrite <- (trial_row_length d1 t ch), <- (trial_row_length d2 t ch), E;
      auto; apply Hw1 || apply Hw2. }
  split.
  - intros ch Hc1 Hc2 E.
    rewrite !analytic_of_channel_closed by assumption.
    do 3 eexists. split; [reflexivity|]. split; [reflexivity|]. simpl.
    rewrite !(nth_error_map_rows _ _ []) by assumption.
    split; [reflexivity|].
    unfold analytic_signal. fold (trial_row d1 t ch). fold (trial_row d2 t ch).
    now rewrite E, (Hsamples ch).
  - intros ch1 ch2 Hc11 Hc21 Hc12 Hc22 E1 E2.
    rewrite !calculate_cross_spectrum_hilbert_closed by assumption.
    do 3 eexists. split; [reflexivity|]. split; [reflexivity|]. simpl.
    rewrite !(nth_error_map_rows _ _ []) by assumption.
    split; [reflexivity|].
    unfold cross_spectrum_row, analytic_signal.
    fold (trial_row d1 t ch1). fold (trial_row d2 t ch1).
    fold (trial_row d1 t ch2). fold (trial_row d2 t ch2).
    now rewrite E1, E2, (Hsamples ch1).
Qed.

Lemma trial_independence_witness :
  well_formed two_by_two /\ well_formed three_trials /\
  (0 < n_trials two_by_two)%nat /\ (0 < n_trials three_trials)%nat /\
  (forall ch,
      valid_channel two_by_two ch -> valid_channel three_trials ch ->
      trial_row two_by_two 0 ch = trial_row three_trials 0 ch ->
      exists a1 a2 row,
        analytic_of_channel two_by_two ch = Ok a1 /\
        analytic_of_channel three_trials ch = Ok a2 /\
        nth_error (rows a1) 0 = Some row /\
        nth_error (rows a2) 0 = Some row) /\
  (forall ch1 ch2,
      valid_channel two_by_two ch1 -> valid_channel three_trials ch1 ->
      valid_channel two_by_two ch2 -> valid_channel three_trials ch2 ->
      trial_row two_by_two 0 ch1 = trial_row three_trials 0 ch1 ->
      trial_row two_by_two 0 ch2 = trial_row three_trials 0 ch2 ->
      exists s1 s2 row,
        calculate_cross_spectrum_hilbert two_by_two ch1 ch2 = Ok s1 /\
        calculate_cross_spectrum_hilbert three_trials ch1 ch2 = Ok s2 /\
        nth_error (rows s1) 0 = Some row /\
        nth_error (rows s2) 0 = Some row).
Proof.
  split; [shape_facts|]. split; [shape_facts|].
  split; [simpl; lia|]. split; [simpl; lia|].
  apply (trial_independence two_by_two three_trials 0); shape_facts.
Defined.

(** ** Complex numbers of modulus one *)

Lemma Cexp_i (theta : R) : Cexp (Cmult Ci (RtoC theta)) = cis theta.
Proof.
  unfold Cexp, Cmult, Ci, RtoC, cis, real, imag; simpl.
  replace (0 * theta - 1 * 0) with 0 by ring.
  replace (0 * 0 + 1 * theta) with theta by ring.
  rewrite exp_0. f_equal; ring.
Qed.






Lemma Cabs_scale (x y n : R) :
  0 < n -> Cabs (x / n, y / n) = Cabs (x, y) / n.
Proof.
  intros Hn. unfold Cabs, real, imag; simpl.
  replace (Rsqr (x / n) + Rsqr (y / n)) with ((Rsqr x + Rsqr y) / Rsqr n)
    by (unfold Rsqr; field; lra).
  rewrite sqrt_div_alt by (unfold Rsqr; nra).
  rewrite (sqrt_Rsqr n) by lra. reflexivity.
Qed.


Lemma INR_length_pos {A : Type} (l : list A) : (1 <= length l)%nat -> 0 < INR (length l).
Proof. intros H. apply lt_0_INR. lia. Qed.





(** ** The values of the three phase measures *)

Lemma result_lengths_closed (data : tensor) (ch1 ch2 : Z) :
  rectangular data ->
  length (map np_abs_complex
            (np_mean0_complex
               (map_array (fun x => Cexp (Cmult Ci (RtoC x)))
                  (phase_difference_array data ch1 ch2)))) = n_samples data /\
  length (map np_abs
            (np_mean0
               (map_array (fun x => imag (Cexp (Cmult Ci (RtoC x))))
                  (phase_difference_array data ch1 ch2)))) = n_samples data /\
  length (map np_abs
            (np_mean0 (map_array np_sign (phase_difference_array data ch1 ch2))))
  = n_samples data.
Proof.
  intros Hr. repeat split.
  - rewrite length_map, np_mean0_complex_length; [reflexivity|].
    now apply phase_difference_array_shaped.
  - rewrite length_map, np_mean0_length; [reflexivity|].
    now apply phase_difference_array_shaped.
  - rewrite length_map, np_mean0_length; [reflexivity|].
    now apply phase_difference_array_shaped.
Qed.

Lemma plv_values (data : tensor) (ch1 ch2 : Z) (j : nat) :
  rectangular data -> (j < n_samples data)%nat ->
  nth_error
    (map np_abs_complex
       (np_mean0_complex
          (map_array (fun x => Cexp (Cmult Ci (RtoC x)))
             (phase_difference_array data ch1 ch2)))) j
  = Some (spec_plv data ch1 ch2 j).
Proof.
  intros Hr Hj.
  rewrite nth_error_map, np_mean0_complex_nth_error;
    [| now apply phase_difference_array_shaped | exact Hj].
  rewrite phase_difference_array_column by exact Hj. reflexivity.
Qed.

Lemma iplv_values (data : tensor) (ch1 ch2 : Z) (j : nat) :
  rectangular data -> (j < n_samples data)%nat ->
  nth_error
    (map np_abs
       (np_mean0
          (map_array (fun x => imag (Cexp (Cmult Ci (RtoC x))))
             (phase_difference_array data ch1 ch2)))) j
  = Some (spec_iplv data ch1 ch2 j).
Proof.
  intros Hr Hj.
  rewrite nth_error_map, np_mean0_nth_error;
    [| now apply phase_difference_array_shaped | exact Hj].
  rewrite phase_difference_array_column by exact Hj. reflexivity.
Qed.

Lemma pli_values (data : tensor) (ch1 ch2 : Z) (j : nat) :
  rectangular data -> (j < n_samples data)%nat ->
  nth_error
    (map np_abs
       (np_mean0 (map_array np_sign (phase_difference_array data ch1 ch2)))) j
  = Some (spec_pli data ch1 ch2 j).
Proof.
  intros Hr Hj.
  rewrite nth_error_map, np_mean0_nth_error;
    [| now apply phase_difference_array_shaped | exact Hj].
  rewrite phase_difference_array_column by exact Hj. reflexivity.
Qed.








Lemma arithmetic_mean_complex_nil : arithmetic_mean_complex [] = (NaN, NaN).
Proof.
  change (arithmetic_mean_complex [])
    with (np_divide (Finite 0) (Finite 0), np_divide (Finite 0) (Finite 0)).
  now rewrite np_divide_zero_zero.
Qed.



(** ** Self-comparison of the phase measures *)










(** * Further properties of the methods *)

(** ** More on sums and means *)

Lemma list_eq_nth_error {A : Type} (l m : list A) (n : nat) :
  length l = n -> length m = n ->
  (forall j, (j < n)%nat -> nth_error l j = nth_error m j) -> l = m.
Proof.
  intros Hl Hm H. apply nth_error_ext. intros j.
  destruct (Nat.lt_ge_cases j n) as [Hj|Hj]; [now apply H|].
  rewrite (proj2 (nth_error_None l j)) by lia.
  now rewrite (proj2 (nth_error_None m j)) by lia.
Qed.

Lemma Rsum_opp (l : list R) : Rsum (map Ropp l) = - Rsum l.
Proof.
  induction l as [|x l IH]; simpl; [lra|]. rewrite IH. lra.
Qed.


Lemma Csum_conj (l : list C) : Csum (map np_conj l) = np_conj (Csum l).
Proof.
  induction l as [|z l IH]; simpl.
  - unfold np_conj, C0; simpl. f_equal. lra.
  - rewrite IH. unfold Cplus, np_conj; simpl. f_equal. lra.
Qed.

Lemma Rsum_nonneg (l : list R) : (forall x, In x l -> 0 <= x) -> 0 <= Rsum l.
Proof.
  induction l as [|x l IH]; intros H; simpl; [lra|].
  pose proof (H x (or_introl eq_refl)).
  assert (0 <= Rsum l) by (apply IH; intros y Hy; apply H; now right).
  lra.
Qed.

Lemma np_sign_opp (x : R) : np_sign (- x) = - np_sign x.
Proof.
  unfold np_sign.
  destruct (Rlt_dec (- x) 0), (Rlt_dec x 0); try destruct (Rlt_dec 0 x);
    try destruct (Rlt_dec 0 (- x)); lra.
Qed.

(** The absolute value of a mean over at least one value. *)
Lemma arithmetic_mean_abs (l : list R) :
  (1 <= length l)%nat ->
  np_abs (arithmetic_mean l) = Finite (Rabs (Rsum l) / INR (length l)).
Proof.
  intros Hl. unfold arithmetic_mean. rewrite np_divide_count by exact Hl.
  simpl. f_equal. unfold Rdiv. rewrite Rabs_mult. f_equal.
  apply Rabs_pos_eq. left. apply Rinv_0_lt_compat. now apply INR_length_pos.
Qed.

Lemma arithmetic_mean_complex_abs (l : list C) :
  (1 <= length l)%nat ->
  np_abs_complex (arithmetic_mean_complex l)
  = Finite (Cabs (Csum l) / INR (length l)).
Proof.
  intros Hl. unfold arithmetic_mean_complex.
  rewrite !np_divide_count by exact Hl. simpl. f_equal.
  destruct (Csum l) as [sr si]. simpl.
  apply Cabs_scale. now apply INR_length_pos.
Qed.

Lemma np_abs_mean_opp (l : list R) :
  np_abs (arithmetic_mean (map Ropp l)) = np_abs (arithmetic_mean l).
Proof.
  destruct l as [|x l]; [reflexivity|].
  rewrite !arithmetic_mean_abs by (simpl; lia).
  rewrite Rsum_opp, Rabs_Ropp, length_map. reflexivity.
Qed.

Lemma Cabs_conj (z : C) : Cabs (np_conj z) = Cabs z.
Proof.
  destruct z as [a b]. unfold Cabs, np_conj, real, imag; simpl.
  now rewrite <- Rsqr_neg.
Qed.

Lemma np_abs_complex_mean_conj (l : list C) :
  np_abs_complex (arithmetic_mean_complex (map np_conj l))
  = np_abs_complex (arithmetic_mean_complex l).
Proof.
  destruct l as [|z l].
  - reflexivity.
  - rewrite !arithmetic_mean_complex_abs by (simpl; lia).
    now rewrite Csum_conj, Cabs_conj, length_map.
Qed.


(** ** Exchanging the two channels *)

Lemma phase_difference_swap (data : tensor) (ch1 ch2 : Z)
  (trial : list (list R)) (j : nat) :
  phase_difference data ch2 ch1 trial j = - phase_difference data ch1 ch2 trial j.
Proof. unfold phase_difference. ring. Qed.

Lemma cis_opp (theta : R) : cis (- theta) = np_conj (cis theta).
Proof. unfold cis, np_conj; simpl. now rewrite cos_neg, sin_neg. Qed.

Lemma complex_phase_difference_swap (data : tensor) (ch1 ch2 : Z)
  (trial : list (list R)) (j : nat) :
  complex_phase_difference data ch2 ch1 trial j
  = np_conj (complex_phase_difference data ch1 ch2 trial j).
Proof.
  unfold complex_phase_difference.
  now rewrite !Cexp_i, phase_difference_swap, cis_opp.
Qed.

Lemma spec_plv_swap (data : tensor) (ch1 ch2 : Z) (j : nat) :
  spec_plv data ch2 ch1 j = spec_plv data ch1 ch2 j.
Proof.
  unfold spec_plv.
  rewrite (map_ext _ _ (fun trial => complex_phase_difference_swap data ch1 ch2 trial j)).
  rewrite <- (map_map (fun trial => complex_phase_difference data ch1 ch2 trial j) np_conj).
  apply np_abs_complex_mean_conj.
Qed.

Lemma spec_iplv_swap (data : tensor) (ch1 ch2 : Z) (j : nat) :
  spec_iplv data ch2 ch1 j = spec_iplv data ch1 ch2 j.
Proof.
  unfold spec_iplv.
  rewrite (map_ext _ (fun trial =>
             - imag (complex_phase_difference data ch1 ch2 trial j)))
    by (intros trial; now rewrite complex_phase_difference_swap).
  rewrite <- (map_map (fun trial => imag (complex_phase_difference data ch1 ch2 trial j)) Ropp).
  apply np_abs_mean_opp.
Qed.

Lemma spec_pli_swap (data : tensor) (ch1 ch2 : Z) (j : nat) :
  spec_pli data ch2 ch1 j = spec_pli data ch1 ch2 j.
Proof.
  unfold spec_pli.
  rewrite (map_ext _ (fun trial =>
             - np_sign (phase_difference data ch1 ch2 trial j)))
    by (intros trial; now rewrite phase_difference_swap, np_sign_opp).
  rewrite <- (map_map (fun trial => np_sign (phase_difference data ch1 ch2 trial j)) Ropp).
  apply np_abs_mean_opp.
Qed.

(** X1: The three phase measures do not depend on the order of the two
    channels: exchanging them negates every phase difference, and the
    absolute value of the trial mean is the same. *)
Theorem measures_symmetric (data : tensor) (ch1 ch2 : Z) :
  well_formed data -> valid_channel data ch1 -> valid_channel data ch2 ->
  calculate_plv data ch2 ch1 = calculate_plv data ch1 ch2 /\
  calculate_iplv data ch2 ch1 = calculate_iplv data ch1 ch2 /\
  calculate_pli data ch2 ch1 = calculate_pli data ch1 ch2.
Proof.
  intros Hw H1 H2.
  rewrite !calculate_plv_closed, !calculate_iplv_closed, !calculate_pli_closed
    by assumption.
  destruct (result_lengths_closed data ch1 ch2 (proj1 Hw)) as (Lp & Li & Ll).
  destruct (result_lengths_closed data ch2 ch1 (proj1 Hw)) as (Lp' & Li' & Ll').
  repeat split; f_equal.
  - apply (list_eq_nth_error _ _ (n_samples data)); try assumption.
    intros j Hj. rewrite !plv_values by (apply Hw || exact Hj).
    now rewrite spec_plv_swap.
  - apply (list_eq_nth_error _ _ (n_samples data)); try assumption.
    intros j Hj. rewrite !iplv_values by (apply Hw || exact Hj).
    now rewrite spec_iplv_swap.
  - apply (list_eq_nth_error _ _ (n_samples data)); try assumption.
    intros j Hj. rewrite !pli_values by (apply Hw || exact Hj).
    now rewrite spec_pli_swap.
Qed.

Lemma measures_symmetric_witness :
  well_formed three_trials /\ valid_channel three_trials 0 /\
  valid_channel three_trials 1 /\
  calculate_plv three_trials 1 0 = calculate_plv three_trials 0 1 /\
  calculate_iplv three_trials 1 0 = calculate_iplv three_trials 0 1 /\
  calculate_pli three_trials 1 0 = calculate_pli three_trials 0 1.
Proof.
  split; [shape_facts|]. split; [shape_facts|]. split; [shape_facts|].
  apply (measures_symmetric three_trials 0 1); shape_facts.
Defined.

(** ** The imaginary measure against the full one *)





(** ** Indices and empty axes *)

(** X5: A channel index of [-channel_count, 0), in either position, selects
    the channel [index + channel_count] in each of the four measures. *)
Theorem negative_index_wraps (data : tensor) (ch other : Z) :
  (- Z.of_nat (n_channels data) <= ch < 0)%Z ->
  let ch' := (ch + Z.of_nat (n_channels data))%Z in
  (calculate_plv data ch other = calculate_plv data ch' other /\
   calculate_plv data other ch = calculate_plv data other ch') /\
  (calculate_iplv data ch other = calculate_iplv data ch' other /\
   calculate_iplv data other ch = calculate_iplv data other ch') /\
  (calculate_pli data ch other = calculate_pli data ch' other /\
   calculate_pli data other ch = calculate_pli data other ch') /\
  (calculate_wpli data ch other = calculate_wpli data ch' other /\
   calculate_wpli data other ch = calculate_wpli data other ch').
Proof.
  intros H ch'.
  unfold calculate_plv, calculate_iplv, calculate_pli, calculate_wpli,
    calculate_cross_spectrum_hilbert.
  rewrite (take_channel_negative data ch H). fold ch'.
  repeat split; reflexivity.
Qed.

Lemma negative_index_wraps_witness :
  (- Z.of_nat (n_channels two_by_two) <= -1 < 0)%Z /\
  (calculate_plv two_by_two (-1) 0 = calculate_plv two_by_two 1 0 /\
   calculate_plv two_by_two 0 (-1) = calculate_plv two_by_two 0 1) /\
  (calculate_iplv two_by_two (-1) 0 = calculate_iplv two_by_two 1 0 /\
   calculate_iplv two_by_two 0 (-1) = calculate_iplv two_by_two 0 1) /\
  (calculate_pli two_by_two (-1) 0 = calculate_pli two_by_two 1 0 /\
   calculate_pli two_by_two 0 (-1) = calculate_pli two_by_two 0 1) /\
  (calculate_wpli two_by_two (-1) 0 = calculate_wpli two_by_two 1 0 /\
   calculate_wpli two_by_two 0 (-1) = calculate_wpli two_by_two 0 1).
Proof.
  split; [simpl; lia|].
  apply (negative_index_wraps two_by_two (-1) 0). simpl; lia.
Defined.

Lemma take_channel_in_range (data : tensor) (ch : Z) :
  ~ out_of_range data ch ->
  exists x, take_channel data ch = Ok x /\ ncols x = n_samples data.
Proof.
  intros H. unfold out_of_range in H.
  destruct (Z.ltb_spec ch 0) as [Hneg|Hpos].
  - rewrite take_channel_negative by lia.
    rewrite take_channel_valid by (unfold valid_channel; lia).
    eexists; split; reflexivity.
  - rewrite take_channel_valid by (unfold valid_channel; lia).
    eexists; split; reflexivity.
Qed.

(** X6: On a tensor whose sample axis is empty, indices that numpy accepts
    make each of the four measures raise [ValueError] (from the analytic
    signal); nothing is returned. *)
Theorem empty_sample_axis_raises (data : tensor) (ch1 ch2 : Z) :
  n_samples data = 0%nat ->
  ~ out_of_range data ch1 -> ~ out_of_range data ch2 ->
  calculate_plv data ch1 ch2 = Raise ValueError /\
  calculate_iplv data ch1 ch2 = Raise ValueError /\
  calculate_pli data ch1 ch2 = Raise ValueError /\
  calculate_wpli data ch1 ch2 = Raise ValueError.
Proof.
  intros Hs H1 H2.
  destruct (take_channel_in_range data ch1 H1) as (x1 & E1 & C1').
  destruct (take_channel_in_range data ch2 H2) as (x2 & E2 & C2').
  unfold calculate_plv, calculate_iplv, calculate_pli, calculate_wpli,
    calculate_cross_spectrum_hilbert.
  rewrite E1, E2. simpl.
  rewrite (hilbert_empty_axis x1) by congruence.
  repeat split; reflexivity.
Qed.

Lemma empty_sample_axis_raises_witness :
  n_samples (mkTensor 2 1 0 [[[]]; [[]]]) = 0%nat /\
  ~ out_of_range (mkTensor 2 1 0 [[[]]; [[]]]) 0 /\
  ~ out_of_range (mkTensor 2 1 0 [[[]]; [[]]]) (-1) /\
  calculate_plv (mkTensor 2 1 0 [[[]]; [[]]]) 0 (-1) = Raise ValueError /\
  calculate_iplv (mkTensor 2 1 0 [[[]]; [[]]]) 0 (-1) = Raise ValueError /\
  calculate_pli (mkTensor 2 1 0 [[[]]; [[]]]) 0 (-1) = Raise ValueError /\
  calculate_wpli (mkTensor 2 1 0 [[[]]; [[]]]) 0 (-1) = Raise ValueError.
Proof.
  assert (H0 : ~ out_of_range (mkTensor 2 1 0 [[[]]; [[]]]) 0)
    by (unfold out_of_range; simpl; lia).
  assert (H1 : ~ out_of_range (mkTensor 2 1 0 [[[]]; [[]]]) (-1))
    by (unfold out_of_range; simpl; lia).
  split; [reflexivity|]. split; [exact H0|]. split; [exact H1|].
  apply (empty_sample_axis_raises (mkTensor 2 1 0 [[[]]; [[]]]) 0 (-1)
           eq_refl H0 H1).
Defined.

(** ** A single trial *)



(** ** The order of the trials *)

Lemma Rsum_perm (l m : list R) : Permutation l m -> Rsum l = Rsum m.
Proof.
  induction 1 as [| x l m _ IH | x y l | l m k _ IH1 _ IH2]; simpl;
    try rewrite IH; lra.
Qed.

Lemma arithmetic_mean_perm (l m : list R) :
  Permutation l m -> arithmetic_mean l = arithmetic_mean m.
Proof.
  intros H. unfold arithmetic_mean.
  now rewrite (Rsum_perm l m H), (Permutation_length H).
Qed.

(** The per-trial quantities depend on the tensor through its sample
    count only. *)
Lemma phase_difference_same_samples (d1 d2 : tensor) (ch1 ch2 : Z)
  (trial : list (list R)) (j : nat) :
  n_samples d1 = n_samples d2 ->
  phase_difference d1 ch1 ch2 trial j = phase_difference d2 ch1 ch2 trial j.
Proof.
  intros H. unfold phase_difference, phase, analytic_signal. now rewrite H.
Qed.

Lemma rectangular_perm (d1 d2 : tensor) :
  n_trials d1 = n_trials d2 -> n_channels d1 = n_channels d2 ->
  n_samples d1 = n_samples d2 -> Permutation (cells d1) (cells d2) ->
  rectangular d1 -> rectangular d2.
Proof.
  intros Ht Hc Hs Hp [Hl Hf]. split.
  - now rewrite <- (Permutation_length Hp), Hl.
  - rewrite <- Hc, <- Hs. now rewrite <- Hp.
Qed.

(** X8: The phase-lag index does not depend on the order of the trials:
    two tensors of one shape whose trials are a permutation of each other
    give the same result (the signs that are averaged are the same
    numbers of -1, 0 and 1). *)
Theorem trial_order_irrelevant (d1 d2 : tensor) (ch1 ch2 : Z) :
  well_formed d1 -> valid_channel d1 ch1 -> valid_channel d1 ch2 ->
  n_trials d1 = n_trials d2 -> n_channels d1 = n_channels d2 ->
  n_samples d1 = n_samples d2 -> Permutation (cells d1) (cells d2) ->
  calculate_pli d1 ch1 ch2 = calculate_pli d2 ch1 ch2.
Proof.
  intros Hw H1 H2 Ht Hc Hs Hp.
  assert (Hw2 : well_formed d2).
  { split; [apply (rectangular_perm d1 d2); auto; apply Hw|].
    rewrite <- Hs. apply Hw. }
  assert (H1' : valid_channel d2 ch1) by (unfold valid_channel in *; now rewrite <- Hc).
  assert (H2' : valid_channel d2 ch2) by (unfold valid_channel in *; now rewrite <- Hc).
  rewrite !calculate_pli_closed by assumption.
  destruct (result_lengths_closed d1 ch1 ch2 (proj1 Hw)) as (_ & _ & Ll).
  destruct (result_lengths_closed d2 ch1 ch2 (proj1 Hw2)) as (_ & _ & Ll').
  rewrite <- Hs in Ll'.
  f_equal. apply (list_eq_nth_error _ _ (n_samples d1)); try assumption.
  intros j Hj.
  rewrite !pli_values by (apply Hw || apply Hw2 || lia).
  unfold spec_pli. do 2 f_equal. apply arithmetic_mean_perm.
  rewrite (map_ext _ _ (fun trial => f_equal np_sign
             (phase_difference_same_samples d1 d2 ch1 ch2 trial j Hs))).
  now apply Permutation_map.
Qed.

Lemma trial_order_irrelevant_witness :
  well_formed two_by_two /\ valid_channel two_by_two 0 /\
  valid_channel two_by_two 1 /\
  Permutation (cells two_by_two) (cells two_by_two_swapped) /\
  calculate_pli two_by_two 0 1 = calculate_pli two_by_two_swapped 0 1.
Proof.
  split; [shape_facts|]. split; [shape_facts|]. split; [shape_facts|].
  split; [apply perm_swap|].
  apply (trial_order_irrelevant two_by_two two_by_two_swapped 0 1);
    try apply perm_swap; shape_facts.
Defined.

(** * The application *)

(** ** Dictionaries and name lookup *)

Lemma dict_get_set_same {V : Type} (k : string) (v : V) (d : dict V) :
  dict_get k (dict_set k v d) = Some v.
Proof.
  induction d as [|[k' v'] d IH]; simpl.
  - now rewrite String.eqb_refl.
  - destruct (String.eqb k' k) eqn:E; simpl; now rewrite E.
Qed.

Lemma dict_get_set_other {V : Type} (k k0 : string) (v : V) (d : dict V) :
  k0 <> k -> dict_get k0 (dict_set k v d) = dict_get k0 d.
Proof.
  intros Hk. induction d as [|[k' v'] d IH]; simpl.
  - destruct (String.eqb k k0) eqn:E; [|reflexivity].
    apply String.eqb_eq in E. congruence.
  - destruct (String.eqb k' k) eqn:E; simpl.
    + apply String.eqb_eq in E. subst k'.
      destruct (String.eqb k k0) eqn:E0; [|reflexivity].
      apply String.eqb_eq in E0. congruence.
    + now rewrite IH.
Qed.

Lemma dict_set_idempotent {V : Type} (k : string) (v : V) (d : dict V) :
  dict_set k v (dict_set k v d) = dict_set k v d.
Proof.
  induction d as [|[k' v'] d IH]; simpl.
  - now rewrite String.eqb_refl.
  - destruct (String.eqb k' k) eqn:E; simpl; rewrite E; [reflexivity|].
    now rewrite IH.
Qed.

Lemma dict_set_In {V : Type} (k k0 : string) (v v0 : V) (d : dict V) :
  In (k0, v0) (dict_set k v d) -> (k0 = k /\ v0 = v) \/ In (k0, v0) d.
Proof.
  induction d as [|[k' v'] d IH]; simpl.
  - intros [H|[]]. left. now inversion H.
  - destruct (String.eqb k' k) eqn:E; simpl.
    + apply String.eqb_eq in E. subst k'.
      intros [H|H]; [left; now inversion H | right; now right].
    + intros [H|H]; [right; now left|].
      destruct (IH H) as [H'|H']; [now left | right; now right].
Qed.

Lemma dict_set_length {V : Type} (k : string) (v : V) (d : dict V) :
  (List.length (dict_set k v d) <= S (List.length d))%nat.
Proof.
  induction d as [|[k' v'] d IH]; simpl; [lia|].
  destruct (String.eqb k' k); simpl; lia.
Qed.

Lemma list_index_sound (x : string) (l : list string) :
  forall i, list_index x l = Ok i -> nth_error l i = Some x.
Proof.
  induction l as [|y l IH]; intros i H; simpl in H; [discriminate|].
  destruct (String.eqb y x) eqn:E.
  - inversion H; subst. apply String.eqb_eq in E. now subst.
  - destruct (list_index x l) as [i'|e]; simpl in H; inversion H; subst.
    simpl. now apply IH.
Qed.

(** With pairwise distinct names, the name of row [i] resolves to [i]. *)
Lemma list_index_nth (l : list string) :
  NoDup l -> forall i x, nth_error l i = Some x -> list_index x l = Ok i.
Proof.
  induction 1 as [|y l Hy Hl IH]; intros [|i] x H; simpl in H; try discriminate.
  - inversion H; subst. simpl. now rewrite String.eqb_refl.
  - simpl. destruct (String.eqb y x) eqn:E.
    + apply String.eqb_eq in E. subst y. apply nth_error_In in H. contradiction.
    + now rewrite (IH i x H).
Qed.

(** ** The dispatch on the method code *)

Lemma calculate_wpli_length (data : tensor) (ch1 ch2 : Z) :
  well_formed data -> valid_channel data ch1 -> valid_channel data ch2 ->
  exists r, calculate_wpli data ch1 ch2 = Ok r /\
            List.length r = n_samples data.
Proof.
  intros Hw H1 H2. rewrite calculate_wpli_closed by assumption.
  eexists; split; [reflexivity|].
  pose proof (cross_spectrum_array_shaped data ch1 ch2 (proj1 Hw)) as Hs.
  rewrite zip_with_length, wpli_num_length, wpli_denom_length by exact Hs.
  apply Nat.min_id.
Qed.

(** X14: [run_phase_analysis] answers [None], raising nothing, for every method
    code outside 0..3, whatever the tensor and the channel indices; for the
    codes 0..3, on a well-formed tensor and a valid channel pair, it
    answers an array with one value per sample. *)
Theorem run_phase_analysis_result (method : Z) (epochs : tensor)
  (channel1 channel2 : Z) :
  (~ (0 <= method <= 3)%Z ->
   run_phase_analysis method epochs channel1 channel2 = Ok None) /\
  (well_formed epochs -> valid_channel epochs channel1 ->
   valid_channel epochs channel2 -> (0 <= method <= 3)%Z ->
   exists r, run_phase_analysis method epochs channel1 channel2 = Ok (Some r) /\
             List.length r = n_samples epochs).
Proof.
  unfold run_phase_analysis. split.
  - intros H.
    destruct (Z.eqb_spec method 0); [lia|].
    destruct (Z.eqb_spec method 1); [lia|].
    destruct (Z.eqb_spec method 2); [lia|].
    destruct (Z.eqb_spec method 3); [lia | reflexivity].
  - intros Hw H1 H2 Hm.
    destruct (result_lengths_closed epochs channel1 channel2 (proj1 Hw))
      as (Lp & Li & Ll).
    destruct (calculate_wpli_length epochs channel1 channel2 Hw H1 H2)
      as (w & Ew & Lw).
    destruct (Z.eqb_spec method 0);
      [rewrite calculate_plv_closed by assumption; eexists; split;
       [reflexivity | exact Lp]|].
    destruct (Z.eqb_spec method 1);
      [rewrite calculate_iplv_closed by assumption; eexists; split;
       [reflexivity | exact Li]|].
    destruct (Z.eqb_spec method 2);
      [rewrite calculate_pli_closed by assumption; eexists; split;
       [reflexivity | exact Ll]|].
    destruct (Z.eqb_spec method 3); [|lia].
    rewrite Ew. eexists; split; [reflexivity | exact Lw].
Qed.

Lemma run_phase_analysis_result_witness :
  ~ (0 <= 4 <= 3)%Z /\ run_phase_analysis 4 two_by_two 0 7 = Ok None /\
  well_formed two_by_two /\ valid_channel two_by_two 0 /\
  valid_channel two_by_two 1 /\ (0 <= 3 <= 3)%Z /\
  exists r, run_phase_analysis 3 two_by_two 0 1 = Ok (Some r) /\
            List.length r = 2%nat.
Proof.
  split; [lia|].
  split; [apply (proj1 (run_phase_analysis_result 4 two_by_two 0 7)); lia|].
  split; [shape_facts|]. split; [shape_facts|]. split; [shape_facts|].
  split; [lia|].
  apply (proj2 (run_phase_analysis_result 3 two_by_two 0 1)); shape_facts.
Defined.

(** ** Adding a channel pair *)

(** X15: With pairwise distinct channel names, [add_channels] resolves the two
    selected names to their rows, runs the selected method on those
    channels of the filtered data and stores the answer under the key of the
    pair: the key then reads back that answer, every other key reads as
    before, and at most one entry is added.  No exception is raised when the
    answer is an array; when it is [None] the answer is stored and the
    drawing raises [ValueError]. *)
Theorem add_channels_stores (self : MyApp) (name1 name2 : string)
  (i1 i2 : nat) (r : option (list float64)) :
  NoDup (ch_names (filtered_epochs self)) ->
  nth_error (ch_names (filtered_epochs self)) i1 = Some name1 ->
  nth_error (ch_names (filtered_epochs self)) i2 = Some name2 ->
  list1_currentItem self = Some name1 ->
  list2_currentItem self = Some name2 ->
  run_phase_analysis (methodComboBox_currentIndex self)
    (get_data (filtered_epochs self)) (Z.of_nat i1) (Z.of_nat i2) = Ok r ->
  add_channels self
  = (with_data self (dict_set (pair_key name1 name2) r (data self)),
     match r with
     | Some _ => None
     | None => Some (EngineError ValueError)
     end) /\
  dict_get (pair_key name1 name2) (data (fst (add_channels self))) = Some r /\
  (forall key, key <> pair_key name1 name2 ->
     dict_get key (data (fst (add_channels self))) = dict_get key (data self)) /\
  (List.length (data (fst (add_channels self))) <= S (List.length (data self)))%nat.
Proof.
  intros Hnd Hn1 Hn2 Hs1 Hs2 Hr.
  assert (E : add_channels self
              = (with_data self (dict_set (pair_key name1 name2) r (data self)),
                 match r with
                 | Some _ => None
                 | None => Some (EngineError ValueError)
                 end)).
  { unfold add_channels.
    rewrite Hs1, (list_index_nth _ Hnd i1 name1 Hn1).
    rewrite Hs2, (list_index_nth _ Hnd i2 name2 Hn2).
    rewrite Hr. now destruct r. }
  rewrite E. cbn [fst data with_data].
  split; [reflexivity|]. split; [apply dict_get_set_same|].
  split; [intros key Hk; now apply dict_get_set_other | apply dict_set_length].
Qed.

Lemma add_channels_stores_witness :
  NoDup (ch_names (filtered_epochs sample_app)) /\
  nth_error (ch_names (filtered_epochs sample_app)) 0 = Some "Fz"%string /\
  nth_error (ch_names (filtered_epochs sample_app)) 1 = Some "Cz"%string /\
  list1_currentItem sample_app = Some "Fz"%string /\
  list2_currentItem sample_app = Some "Cz"%string /\
  exists r,
    run_phase_analysis 0 two_by_two 0 1 = Ok (Some r) /\
    add_channels sample_app
    = (with_data sample_app [("Fz - Cz"%string, Some r)], None) /\
    dict_get "Fz - Cz"%string (data (fst (add_channels sample_app)))
    = Some (Some r).
Proof.
  assert (Hnd : NoDup (ch_names (filtered_epochs sample_app))).
  { simpl. repeat constructor; simpl; intuition discriminate. }
  assert (Hw : well_formed two_by_two) by shape_facts.
  assert (H0 : valid_channel two_by_two 0) by shape_facts.
  assert (H1 : valid_channel two_by_two 1) by shape_facts.
  assert (Hr : run_phase_analysis 0 two_by_two 0 1
               = Ok (Some (map np_abs_complex
                             (np_mean0_complex
                                (map_array (fun x => Cexp (Cmult Ci (RtoC x)))
                                   (phase_difference_array two_by_two 0 1)))))).
  { unfold run_phase_analysis. cbn [Z.eqb].
    now rewrite calculate_plv_closed. }
  split; [exact Hnd|]. do 4 (split; [reflexivity|]).
  eexists. split; [exact Hr|].
  destruct (add_channels_stores sample_app "Fz" "Cz" 0 1 _ Hnd
              eq_refl eq_refl eq_refl eq_refl Hr) as (E & G & _).
  split; [exact E | exact G].
Defined.

(** X16: Adding the same selection a second time changes nothing: the outcome
    of the second call is the outcome of the first. *)
Theorem add_channels_idempotent (self : MyApp) :
  add_channels (fst (add_channels self)) = add_channels self.
Proof.
  unfold add_channels.
  destruct (list1_currentItem self) as [channel1|] eqn:E1;
    [|cbn [fst]; now rewrite E1].
  destruct (list_index channel1 (ch_names (filtered_epochs self)))
    as [i1|e1] eqn:I1; [|cbn [fst]; now rewrite E1, I1].
  destruct (list2_currentItem self) as [channel2|] eqn:E2;
    [|cbn [fst]; now rewrite E1, I1, E2].
  destruct (list_index channel2 (ch_names (filtered_epochs self)))
    as [i2|e2] eqn:I2; [|cbn [fst]; now rewrite E1, I1, E2, I2].
  destruct (run_phase_analysis (methodComboBox_currentIndex self)
              (get_data (filtered_epochs self)) (Z.of_nat i1) (Z.of_nat i2))
    as [d|e] eqn:R; [|cbn [fst]; now rewrite E1, I1, E2, I2, R].
  assert (E : forall o : option app_exn,
             fst (with_data self
                    (dict_set (pair_key channel1 channel2) d (data self)), o)
             = with_data self
                 (dict_set (pair_key channel1 channel2) d (data self)))
    by reflexivity.
  destruct d as [arr|]; rewrite E;
    cbn [with_data list1_currentItem list2_currentItem filtered_epochs
           methodComboBox_currentIndex data];
    rewrite E1, I1, E2, I2, R;
    unfold with_data; cbn; now rewrite dict_set_idempotent.
Qed.

(** ** Keys *)

Lemma append_blank_inj (a : string) :
  forall a' b b',
    lacks " "%char a -> lacks " "%char a' ->
    (a ++ String " "%char b)%string = (a' ++ String " "%char b')%string ->
    a = a' /\ b = b'.
Proof.
  induction a as [|c a IH]; intros [|c' a'] b b' Ha Ha' H; simpl in *.
  - inversion H. now split.
  - inversion H; subst. destruct Ha' as [Hc _]. now contradict Hc.
  - inversion H; subst. destruct Ha as [Hc _]. now contradict Hc.
  - inversion H; subst.
    destruct (IH a' b b' (proj2 Ha) (proj2 Ha')) as [-> ->]; auto.
Qed.

(** X17: When the first names hold no blank, two channel pairs with the same
    key are the same pair: a stored result is only overwritten by a result
    for the same pair of names. *)
Theorem pair_key_injective (channel1 channel2 channel1' channel2' : string) :
  lacks " "%char channel1 -> lacks " "%char channel1' ->
  pair_key channel1 channel2 = pair_key channel1' channel2' ->
  channel1 = channel1' /\ channel2 = channel2'.
Proof.
  intros H1 H1' H. unfold pair_key in H.
  change (" - " ++ channel2)%string
    with (String " "%char (String "-"%char (String " "%char channel2))) in H.
  change (" - " ++ channel2')%string
    with (String " "%char (String "-"%char (String " "%char channel2'))) in H.
  destruct (append_blank_inj _ _ _ _ H1 H1' H) as [E1 E2].
  split; [exact E1 | now inversion E2].
Qed.

Lemma pair_key_injective_witness :
  lacks " "%char "Fz"%string /\
  pair_key "Fz" "Cz" = pair_key "Fz" "Cz" /\
  "Fz"%string = "Fz"%string /\ "Cz"%string = "Cz"%string.
Proof.
  assert (H1 : lacks " "%char "Fz"%string)
    by (simpl; repeat split; discriminate).
  split; [exact H1|]. split; [reflexivity|].
  apply (pair_key_injective "Fz" "Cz" "Fz" "Cz" H1 H1 eq_refl).
Defined.

(** ** The stored results stay consistent *)

Lemma update_plot_state (self : MyApp) :
  fst (update_plot self) = with_data self [].
Proof.
  unfold update_plot. now destruct (methods_get _ methods).
Qed.

Lemma consistent_empty (self : MyApp) : consistent (with_data self []).
Proof. intros key v []. Qed.

Lemma add_channels_consistent (self : MyApp) :
  consistent self -> consistent (fst (add_channels self)).
Proof.
  intros Hc. unfold add_channels.
  destruct (list1_currentItem self) as [channel1|]; [|exact Hc].
  destruct (list_index channel1 (ch_names (filtered_epochs self)))
    as [i1|e1] eqn:I1; [|exact Hc].
  destruct (list2_currentItem self) as [channel2|]; [|exact Hc].
  destruct (list_index channel2 (ch_names (filtered_epochs self)))
    as [i2|e2] eqn:I2; [|exact Hc].
  destruct (run_phase_analysis (methodComboBox_currentIndex self)
              (get_data (filtered_epochs self)) (Z.of_nat i1) (Z.of_nat i2))
    as [d|e] eqn:R; [|exact Hc].
  replace (fst _)
    with (with_data self (dict_set (pair_key channel1 channel2) d (data self)))
    by now destruct d.
  intros key v Hin. cbn in Hin.
  destruct (dict_set_In _ _ _ _ _ Hin) as [[-> ->]|Hold].
  - exists channel1, channel2, i1, i2. cbn. auto.
  - destruct (Hc key v Hold) as (c1 & c2 & j1 & j2 & H).
    exists c1, c2, j1, j2. exact H.
Qed.

Section FilterProperties.

Variable py_int : string -> result Z.
Variable mne_filter : Epochs -> Z -> Z -> outcome Epochs.

(** When [apply_filter] returns without an exception it has gone through
    [update_plot]: no stored result is left. *)
Lemma apply_filter_clears (self : MyApp) :
  snd (apply_filter py_int mne_filter self) = None ->
  data (fst (apply_filter py_int mne_filter self)) = [].
Proof.
  unfold apply_filter.
  destruct (String.eqb (filterLineEdit_text self) "");
    [intros _; now rewrite update_plot_state|].
  destruct (map_result py_int _) as [nums|e]; [|discriminate].
  destruct (nth_error nums 0) as [l|]; [|discriminate].
  destruct (nth_error nums 1) as [h|]; [|discriminate].
  destruct (mne_filter _ l h) as [filtered [e|]]; [discriminate|].
  intros _. now rewrite update_plot_state.
Qed.

(** X18: Every handler keeps the stored results consistent with the selected
    method and the filtered data: [add_channels], [update_plot] and a change
    of method always, [apply_filter] whenever it raises nothing; and
    [closeEvent] hands over exactly the stored results. *)
Theorem handlers_keep_consistent (self : MyApp) (m : Z) :
  consistent self ->
  consistent (fst (add_channels self)) /\
  consistent (fst (update_plot self)) /\
  consistent (fst (select_method m self)) /\
  (snd (apply_filter py_int mne_filter self) = None ->
   consistent (fst (apply_filter py_int mne_filter self))) /\
  consistent (closeEvent self) /\
  returnValue (closeEvent self) = Some (data self).
Proof.
  intros Hc.
  split; [now apply add_channels_consistent|].
  split; [rewrite update_plot_state; apply consistent_empty|].
  split.
  { unfold select_method.
    destruct (m =? methodComboBox_currentIndex self)%Z; [exact Hc|].
    rewrite update_plot_state. apply consistent_empty. }
  split.
  { intros Hn key v Hin.
    rewrite (apply_filter_clears self Hn) in Hin. contradiction. }
  split; [exact Hc | reflexivity].
Qed.

(** X19: A filter text with a single field that [int] accepts: [apply_filter]
    raises [IndexError] after it has put the unfiltered epochs back, and the
    results stored so far stay in place. *)
Theorem apply_filter_single_field (self : MyApp) (v : Z) :
  filterLineEdit_text self <> ""%string ->
  lacks ","%char (strip_brackets (filterLineEdit_text self)) ->
  py_int (strip_brackets (filterLineEdit_text self)) = Ok v ->
  apply_filter py_int mne_filter self
  = (with_filtered_epochs self (epochs self), Some (EngineError IndexError)) /\
  data (fst (apply_filter py_int mne_filter self)) = data self.
Proof.
  intros Ht Hl Hv.
  assert (Hsplit : forall s, lacks ","%char s -> str_split ","%char s = [s]).
  { induction s as [|c s IH]; simpl; [reflexivity|].
    intros [Hc Hs]. destruct (Ascii.eqb_spec c ","%char); [contradiction|].
    now rewrite IH. }
  assert (E : apply_filter py_int mne_filter self
              = (with_filtered_epochs self (epochs self),
                 Some (EngineError IndexError))).
  { unfold apply_filter.
    destruct (String.eqb_spec (filterLineEdit_text self) ""); [contradiction|].
    fold (strip_brackets (filterLineEdit_text self)).
    rewrite (Hsplit _ Hl). cbn [map_result]. rewrite Hv. reflexivity. }
  rewrite E. split; reflexivity.
Qed.

(** X20: Brackets are dropped wherever they stand: two non-empty filter texts
    that agree once their brackets are removed lead to the same outcome. *)
Theorem apply_filter_ignores_brackets (self : MyApp) (text1 text2 : string) :
  text1 <> ""%string -> text2 <> ""%string ->
  strip_brackets text1 = strip_brackets text2 ->
  snd (apply_filter py_int mne_filter (with_filter_text self text1))
  = snd (apply_filter py_int mne_filter (with_filter_text self text2)) /\
  with_filter_text
    (fst (apply_filter py_int mne_filter (with_filter_text self text1))) ""
  = with_filter_text
      (fst (apply_filter py_int mne_filter (with_filter_text self text2))) "".
Proof.
  intros H1 H2 Hs. unfold apply_filter. cbn [filterLineEdit_text with_filter_text].
  destruct (String.eqb_spec text1 ""); [contradiction|].
  destruct (String.eqb_spec text2 ""); [contradiction|].
  fold (strip_brackets text1). fold (strip_brackets text2). rewrite Hs.
  destruct (map_result py_int _) as [nums|e]; [|split; reflexivity].
  destruct (nth_error nums 0) as [l|]; [|split; reflexivity].
  destruct (nth_error nums 1) as [h|]; [|split; reflexivity].
  cbn [filtered_epochs with_filtered_epochs with_filter_text epochs].
  destruct (mne_filter (epochs self) l h) as [filtered [e|]];
    [split; reflexivity|].
  unfold update_plot.
  cbn [methodComboBox_currentIndex with_filtered_epochs with_filter_text with_data].
  destruct (methods_get _ methods); split; reflexivity.
Qed.

End FilterProperties.

Lemma handlers_keep_consistent_witness :
  consistent sample_app /\
  consistent (fst (add_channels sample_app)) /\
  consistent (fst (update_plot sample_app)) /\
  consistent (fst (select_method 2 sample_app)) /\
  (snd (apply_filter sample_int sample_filter sample_app) = None ->
   consistent (fst (apply_filter sample_int sample_filter sample_app))) /\
  consistent (closeEvent sample_app) /\
  returnValue (closeEvent sample_app) = Some (data sample_app).
Proof.
  assert (H : consistent sample_app) by (intros key v []).
  split; [exact H|].
  apply (handlers_keep_consistent sample_int sample_filter sample_app 2 H).
Defined.

Lemma apply_filter_single_field_witness :
  filterLineEdit_text (with_filter_text sample_app "[8]") <> ""%string /\
  lacks ","%char (strip_brackets "[8]") /\
  sample_int (strip_brackets "[8]") = Ok 8%Z /\
  apply_filter sample_int sample_filter (with_filter_text sample_app "[8]")
  = (with_filtered_epochs (with_filter_text sample_app "[8]") sample_epochs,
     Some (EngineError IndexError)) /\
  data (fst (apply_filter sample_int sample_filter
               (with_filter_text sample_app "[8]"))) = [].
Proof.
  assert (H1 : filterLineEdit_text (with_filter_text sample_app "[8]") <> ""%string)
    by discriminate.
  assert (H2 : lacks ","%char (strip_brackets "[8]"))
    by (cbn; repeat split; discriminate).
  assert (H3 : sample_int (strip_brackets "[8]") = Ok 8%Z) by reflexivity.
  split; [exact H1|]. split; [exact H2|]. split; [exact H3|].
  apply (apply_filter_single_field sample_int sample_filter
           (with_filter_text sample_app "[8]") 8 H1 H2 H3).
Defined.

Lemma apply_filter_ignores_brackets_witness :
  "[8,12]"%string <> ""%string /\ "8],[12"%string <> ""%string /\
  strip_brackets "[8,12]" = strip_brackets "8],[12" /\
  snd (apply_filter sample_int sample_filter (with_filter_text sample_app "[8,12]"))
  = snd (apply_filter sample_int sample_filter (with_filter_text sample_app "8],[12")) /\
  with_filter_text
    (fst (apply_filter sample_int sample_filter
            (with_filter_text sample_app "[8,12]"))) ""
  = with_filter_text
      (fst (apply_filter sample_int sample_filter
              (with_filter_text sample_app "8],[12"))) "".
Proof.
  split; [discriminate|]. split; [discriminate|]. split; [reflexivity|].
  apply (apply_filter_ignores_brackets sample_int sample_filter sample_app
           "[8,12]" "8],[12"); [discriminate | discriminate | reflexivity].
Defined.

(** * More on the numeric methods *)

(** ** The cross-spectrum *)

(** X10: On a well-formed tensor and a valid channel pair the cross-spectrum
    has the shape of one channel slice: one row per trial, one column per
    sample. *)
Theorem cross_spectrum_shape (data : tensor) (ch1 ch2 : Z) :
  well_formed data -> valid_channel data ch1 -> valid_channel data ch2 ->
  exists s,
    calculate_cross_spectrum_hilbert data ch1 ch2 = Ok s /\
    nrows s = n_trials data /\ ncols s = n_samples data /\
    List.length (rows s) = n_trials data /\
    Forall (fun row => List.length row = n_samples data) (rows s).
Proof.
  intros Hw H1 H2.
  rewrite calculate_cross_spectrum_hilbert_closed by assumption.
  eexists. split; [reflexivity|].
  destruct (cross_spectrum_array_shaped data ch1 ch2 (proj1 Hw)) as [Hn Hr].
  repeat split; assumption.
Qed.

Lemma cross_spectrum_shape_witness :
  well_formed three_trials /\ valid_channel three_trials 0 /\
  valid_channel three_trials 1 /\
  exists s,
    calculate_cross_spectrum_hilbert three_trials 0 1 = Ok s /\
    nrows s = 3%nat /\ ncols s = 2%nat /\
    List.length (rows s) = 3%nat /\
    Forall (fun row => List.length row = 2%nat) (rows s).
Proof.
  split; [shape_facts|]. split; [shape_facts|]. split; [shape_facts|].
  apply (cross_spectrum_shape three_trials 0 1); shape_facts.
Defined.

(** ** No trial *)

(** X12: On a well-formed tensor without trials the four measures return [NaN]
    at every sample: the means over the empty trial axis are [0/0]. *)
Theorem no_trials_all_nan (data : tensor) (ch1 ch2 : Z) :
  well_formed data -> valid_channel data ch1 -> valid_channel data ch2 ->
  n_trials data = 0%nat ->
  calculate_plv data ch1 ch2 = Ok (repeat NaN (n_samples data)) /\
  calculate_iplv data ch1 ch2 = Ok (repeat NaN (n_samples data)) /\
  calculate_pli data ch1 ch2 = Ok (repeat NaN (n_samples data)) /\
  calculate_wpli data ch1 ch2 = Ok (repeat NaN (n_samples data)).
Proof.
  intros Hw H1 H2 Ht.
  assert (Hc : cells data = []).
  { destruct Hw as [[Hl _] _]. rewrite Ht in Hl.
    now destruct (cells data). }
  rewrite calculate_plv_closed, calculate_iplv_closed, calculate_pli_closed,
    calculate_wpli_closed by assumption.
  destruct (result_lengths_closed data ch1 ch2 (proj1 Hw)) as (Lp & Li & Ll).
  pose proof (cross_spectrum_array_shaped data ch1 ch2 (proj1 Hw)) as Hs.
  repeat split; f_equal; apply repeat_of_nth_error; try assumption.
  - intros j Hj. rewrite plv_values by (apply Hw || exact Hj).
    unfold spec_plv. rewrite Hc. cbn [map].
    now rewrite arithmetic_mean_complex_nil.
  - intros j Hj. rewrite iplv_values by (apply Hw || exact Hj).
    unfold spec_iplv. rewrite Hc. cbn [map]. now rewrite arithmetic_mean_nil.
  - intros j Hj. rewrite pli_values by (apply Hw || exact Hj).
    unfold spec_pli. rewrite Hc. cbn [map]. now rewrite arithmetic_mean_nil.
  - rewrite zip_with_length, wpli_num_length, wpli_denom_length by exact Hs.
    apply Nat.min_id.
  - intros j Hj.
    destruct (wpli_zero_imag (cross_spectrum_array data ch1 ch2) j Hs Hj)
      as (n & d & _ & _ & Hq & Hnan & _).
    + unfold zero_imag_at, cross_spectrum_array; simpl. rewrite Hc. constructor.
    + now rewrite Hq, Hnan.
Qed.

Lemma no_trials_all_nan_witness :
  well_formed (mkTensor 0 2 3 []) /\ valid_channel (mkTensor 0 2 3 []) 0 /\
  valid_channel (mkTensor 0 2 3 []) 1 /\
  calculate_plv (mkTensor 0 2 3 []) 0 1 = Ok [NaN; NaN; NaN] /\
  calculate_iplv (mkTensor 0 2 3 []) 0 1 = Ok [NaN; NaN; NaN] /\
  calculate_pli (mkTensor 0 2 3 []) 0 1 = Ok [NaN; NaN; NaN] /\
  calculate_wpli (mkTensor 0 2 3 []) 0 1 = Ok [NaN; NaN; NaN].
Proof.
  split; [shape_facts|]. split; [shape_facts|]. split; [shape_facts|].
  apply (no_trials_all_nan (mkTensor 0 2 3 []) 0 1); shape_facts.
Defined.

(** ** The other channels *)

Lemma map_nth_ext {X Y : Type} (f g : X -> Y) (d : X) (l m : list X) :
  List.length l = List.length m ->
  (forall t, f (nth t l d) = g (nth t m d)) -> map f l = map g m.
Proof.
  revert m. induction l as [|x l IH]; intros [|y m] Hl H; simpl in *;
    try discriminate; [reflexivity|].
  f_equal; [exact (H 0%nat)|].
  apply IH; [lia|]. intros t. exact (H (S t)).
Qed.

Lemma take_channel_same (d1 d2 : tensor) (ch : Z) :
  n_trials d1 = n_trials d2 -> n_channels d1 = n_channels d2 ->
  n_samples d1 = n_samples d2 ->
  List.length (cells d1) = List.length (cells d2) ->
  valid_channel d1 ch ->
  (forall t, trial_row d1 t ch = trial_row d2 t ch) ->
  take_channel d1 ch = take_channel d2 ch.
Proof.
  intros Ht Hc Hs Hl Hv Hrows.
  rewrite !take_channel_valid
    by (assumption || (unfold valid_channel in *; now rewrite <- Hc)).
  rewrite Ht, Hs. do 2 f_equal.
  apply (map_nth_ext _ _ []); [exact Hl | exact Hrows].
Qed.

(** X13: The measures read the two selected channels and nothing else: two
    tensors of one shape that agree on these two channels give the same
    four results, whatever their other channels hold. *)
Theorem other_channels_ignored (d1 d2 : tensor) (ch1 ch2 : Z) :
  n_trials d1 = n_trials d2 -> n_channels d1 = n_channels d2 ->
  n_samples d1 = n_samples d2 ->
  List.length (cells d1) = List.length (cells d2) ->
  valid_channel d1 ch1 -> valid_channel d1 ch2 ->
  (forall t, trial_row d1 t ch1 = trial_row d2 t ch1) ->
  (forall t, trial_row d1 t ch2 = trial_row d2 t ch2) ->
  calculate_plv d1 ch1 ch2 = calculate_plv d2 ch1 ch2 /\
  calculate_iplv d1 ch1 ch2 = calculate_iplv d2 ch1 ch2 /\
  calculate_pli d1 ch1 ch2 = calculate_pli d2 ch1 ch2 /\
  calculate_wpli d1 ch1 ch2 = calculate_wpli d2 ch1 ch2.
Proof.
  intros Ht Hc Hs Hl H1 H2 R1 R2.
  unfold calculate_plv, calculate_iplv, calculate_pli, calculate_wpli,
    calculate_cross_spectrum_hilbert.
  rewrite (take_channel_same d1 d2 ch1 Ht Hc Hs Hl H1 R1).
  rewrite (take_channel_same d1 d2 ch2 Ht Hc Hs Hl H2 R2).
  repeat split; reflexivity.
Qed.

Lemma other_channels_ignored_witness :
  valid_channel three_channels 0 /\ valid_channel three_channels 1 /\
  (forall t, trial_row three_channels t 0 = trial_row three_channels' t 0) /\
  (forall t, trial_row three_channels t 1 = trial_row three_channels' t 1) /\
  calculate_plv three_channels 0 1 = calculate_plv three_channels' 0 1 /\
  calculate_iplv three_channels 0 1 = calculate_iplv three_channels' 0 1 /\
  calculate_pli three_channels 0 1 = calculate_pli three_channels' 0 1 /\
  calculate_wpli three_channels 0 1 = calculate_wpli three_channels' 0 1.
Proof.
  assert (R0 : forall t, trial_row three_channels t 0 = trial_row three_channels' t 0)
    by (intros [|[|[|t]]]; reflexivity).
  assert (R1 : forall t, trial_row three_channels t 1 = trial_row three_channels' t 1)
    by (intros [|[|[|t]]]; reflexivity).
  split; [shape_facts|]. split; [shape_facts|].
  split; [exact R0|]. split; [exact R1|].
  apply (other_channels_ignored three_channels three_channels' 0 1);
    try reflexivity; try assumption; shape_facts.
Defined.
